(** * Kisaantic AI: token store, refresh coordinator and authorized fetch

    A shallow embedding of [lib/auth.ts] (the credential store) and of
    [lib/api.ts] (the single-flight refresh coordinator [refreshTokens] and
    the request executor [fetchWithAuth]).

    The browser is a record [World]: [localStorage] is a finite map from
    keys to strings, [Date.now()] is an integer clock, the module variable
    [refreshPromise] is an optional index into a table of promises, and the
    network is an oracle giving, for the k-th [fetch] issued, its latency
    and its result.  Side effects that leave the page (console output, auth
    failures, redirects, network requests) are appended to a log.

    Code between two suspensions runs alone on the event loop, so an
    [async] function is cut at its [await]s: [refreshTokens] is the part
    that runs when the function is called, [settle] the part that runs
    when the awaited request has settled. [fetchWithAuth] is one call
    followed through its awaits with nothing else scheduled in between;
    [run] schedules several callers of the coordinator.

    The built-ins [atob], [JSON.parse] and the string-to-number
    conversion are parameters of the development. JavaScript numbers are
    restricted to integers ([Z]) plus [NaN]. *)

From Stdlib Require Import ZArith Ascii String List Bool Lia.
From stdpp Require Import gmap strings list fin_maps.

Local Set Warnings "-register-all".

Local Open Scope string_scope.
Local Open Scope Z_scope.

(* ------------------------------------------------------------------ *)
(** ** JavaScript helpers *)

Module Js.

(** [x || d] on a nullable string: null and the empty string are falsy. *)
Definition truthy_str (s : option string) : bool :=
  match s with
  | None => false
  | Some s => negb (String.eqb s "")
  end.

Definition is_ws (c : ascii) : bool :=
  let n := nat_of_ascii c in
  ((9 <=? n)%nat && (n <=? 13)%nat) || (n =? 32)%nat.

Definition digit_of (c : ascii) : option Z :=
  let n := Z.of_nat (nat_of_ascii c) in
  if (48 <=? n) && (n <=? 57) then Some (n - 48) else None.

Fixpoint skip_ws (s : string) : string :=
  match s with
  | String c r => if is_ws c then skip_ws r else s
  | EmptyString => s
  end.

(** The longest prefix of decimal digits, accumulated left to right;
    [None] when there is no digit at all. *)
Fixpoint digits_from (acc : option Z) (s : string) : option Z :=
  match s with
  | String c r =>
      match digit_of c with
      | Some d => digits_from (Some (10 * default 0 acc + d)) r
      | None => acc
      end
  | EmptyString => acc
  end.

(** [Number.parseInt(s, 10)]; [None] is [NaN]. *)
Definition parseInt (s : string) : option Z :=
  match skip_ws s with
  | String "-"%char r => Z.opp <$> digits_from None r
  | String "+"%char r => digits_from None r
  | r => digits_from None r
  end.

Definition digit_char (d : Z) : ascii := ascii_of_nat (Z.to_nat (48 + d)).

Fixpoint pos_digits (fuel : nat) (n : Z) (acc : string) : string :=
  match fuel with
  | O => acc
  | S f =>
      let acc' := String (digit_char (n mod 10)) acc in
      if n <? 10 then acc' else pos_digits f (n / 10) acc'
  end.

(** [String(n)] for an integer [n]. *)
Definition String_of_Z (n : Z) : string :=
  if n <? 0 then String "-"%char (pos_digits (S (Z.to_nat (Z.log2 (- n)))) (- n) "")
  else pos_digits (S (Z.to_nat (Z.log2 n))) n "".

(** A number: an integer or [NaN]. *)
Inductive Num :=
| NaN
| Fin (z : Z).

Definition num_mul (a : Num) (k : Z) : Num :=
  match a with NaN => NaN | Fin z => Fin (z * k) end.

Definition num_sub (a : Num) (k : Z) : Num :=
  match a with NaN => NaN | Fin z => Fin (z - k) end.

(** [t < a]: every comparison with [NaN] is false. *)
Definition lt_num (t : Z) (a : Num) : bool :=
  match a with NaN => false | Fin z => t <? z end.

(** What [JSON.parse] returns. Object members are in source order; on a
    repeated key the last member is the one the object holds. *)
Inductive Value :=
| JNull
| JBool (b : bool)
| JNum (n : Z)
| JStr (s : string)
| JArr (items : list Value)
| JObj (members : list (string * Value)).

Fixpoint join (sep : string) (l : list string) : string :=
  match l with
  | [] => ""
  | [x] => x
  | x :: r => x ++ sep ++ join sep r
  end.

(** [String(v)]; inside [Array.prototype.join] null prints as empty. *)
Fixpoint to_string (v : Value) : string :=
  match v with
  | JNull => "null"
  | JBool true => "true"
  | JBool false => "false"
  | JNum n => String_of_Z n
  | JStr s => s
  | JArr items =>
      join "," (map (fun i => match i with JNull => "" | _ => to_string i end) items)
  | JObj _ => "[object Object]"
  end.

Fixpoint member (k : string) (ms : list (string * Value)) : option Value :=
  match ms with
  | [] => None
  | (k', v) :: r =>
      match member k r with
      | Some v' => Some v'
      | None => if String.eqb k k' then Some v else None
      end
  end.

(** [v.k] for a parsed value [v]: reading a property of null throws
    (outer [None]); a primitive or an array has no such property
    (inner [None], undefined). *)
Definition get_prop (v : Value) (k : string) : option (option Value) :=
  match v with
  | JNull => None
  | JObj ms => Some (member k ms)
  | _ => Some None
  end.

(** [s.split(sep)] for a one-character separator. *)
Fixpoint split_go (sep : ascii) (cur : string) (s : string) : list string :=
  match s with
  | EmptyString => [cur]
  | String c r =>
      if Ascii.eqb c sep then cur :: split_go sep "" r
      else split_go sep (cur ++ String c "") r
  end.

Definition split (sep : ascii) (s : string) : list string := split_go sep "" s.

(** [s.includes(t)] and [s.startsWith(t)]. *)
Fixpoint includes (s t : string) : bool :=
  String.prefix t s ||
  match s with
  | EmptyString => false
  | String _ r => includes r t
  end.

Definition startsWith (s t : string) : bool := String.prefix t s.

Definition rev_string (s : string) : string :=
  string_of_list_ascii (rev (list_ascii_of_string s)).

(** [s.trim()]. *)
Definition trim (s : string) : string :=
  rev_string (skip_ws (rev_string (skip_ws s))).

Definition lower (c : ascii) : ascii :=
  let n := nat_of_ascii c in
  if ((65 <=? n)%nat && (n <=? 90)%nat) then ascii_of_nat (n + 32) else c.

Fixpoint lowercase (s : string) : string :=
  match s with
  | EmptyString => EmptyString
  | String c r => String (lower c) (lowercase r)
  end.

(** [Headers.prototype.set]: header names compare without case. *)
Definition headers_set (name value : string) (hs : list (string * string))
    : list (string * string) :=
  (List.filter (fun h => negb (String.eqb (lowercase (fst h)) (lowercase name))) hs
     ++ [(name, value)])%list.

Definition headers_get (name : string) (hs : list (string * string))
    : option string :=
  snd <$> find (fun h => String.eqb (lowercase (fst h)) (lowercase name)) hs.

End Js.

(* ------------------------------------------------------------------ *)
(** ** Data *)

(** Errors thrown or used as rejection reasons. *)
Record JsError := mkError { err_name : string; err_message : string }.

(** The fields of a refresh response body that the coordinator reads. *)
Record RefreshData := mkData {
  access_token : option string;   (* [None]: the field is missing *)
  refresh_token : option string;  (* [None]: missing or null *)
  expires_in : option Z;          (* [None]: missing or null *)
  message : option string
}.

(** An HTTP response: its status and what [res.json()] gives
    ([None]: the body is not JSON, or is JSON null). *)
Record Response := mkResponse { status : Z; json : option RefreshData }.

Definition ok (r : Response) : bool := (200 <=? status r) && (status r <=? 299).

Inductive NetResult :=
| Responds (r : Response)
| Rejects (e : JsError).

(** What the network does with one request: how long it takes and how it
    ends when nothing aborts it. *)
Record NetOutcome := mkOutcome { latency : Z; result : NetResult }.

(** A request body: text, or [JSON.stringify] of an object whose members
    are strings. *)
Inductive Body :=
| BodyText (s : string)
| BodyJson (members : list (string * string)).

Record RequestInit := mkInit {
  init_method : option string;
  init_headers : list (string * string);
  init_body : option Body;
  init_mode : option string;
  init_credentials : option string
}.

(** Who issued a request: the coordinator, or the executor on its
    attempt [retryCount]. *)
Inductive Issuer :=
| ByRefresh
| ByExecutor (retryCount : nat).

Inductive Event :=
| EvConsoleError (label : string)
| EvAuthError (reason : string)
| EvRedirect (href : string)
| EvFetch (who : Issuer) (url : string) (init : RequestInit) (timeout : Z).

(** A promise of [refreshTokens]: pending on the k-th request with the
    refresh token captured by the closure, or settled with its value. *)
Inductive Promise :=
| Pending (request : nat) (issued : Z) (captured : string)
| Settled (value : option string).

Record World := mkWorld {
  pathname : option string;          (* [None]: there is no [window] *)
  localStorage : gmap string string;
  now : Z;                           (* [Date.now()] *)
  api_base : option string;          (* NEXT_PUBLIC_API_BASE_URL *)
  refreshPromise : option nat;
  promises : list Promise;
  network : nat -> NetOutcome;
  sent : nat;                        (* requests issued so far *)
  log : list Event
}.

Definition set_storage (m : gmap string string) (w : World) : World :=
  mkWorld (pathname w) m (now w) (api_base w) (refreshPromise w)
          (promises w) (network w) (sent w) (log w).

Definition set_now (t : Z) (w : World) : World :=
  mkWorld (pathname w) (localStorage w) t (api_base w) (refreshPromise w)
          (promises w) (network w) (sent w) (log w).

Definition set_refreshPromise (p : option nat) (w : World) : World :=
  mkWorld (pathname w) (localStorage w) (now w) (api_base w) p
          (promises w) (network w) (sent w) (log w).

Definition set_promises (ps : list Promise) (w : World) : World :=
  mkWorld (pathname w) (localStorage w) (now w) (api_base w)
          (refreshPromise w) ps (network w) (sent w) (log w).

Definition set_sent (n : nat) (w : World) : World :=
  mkWorld (pathname w) (localStorage w) (now w) (api_base w)
          (refreshPromise w) (promises w) (network w) n (log w).

Definition emit (e : Event) (w : World) : World :=
  mkWorld (pathname w) (localStorage w) (now w) (api_base w)
          (refreshPromise w) (promises w) (network w) (sent w) (log w ++ [e]).

(* ------------------------------------------------------------------ *)
(** ** A reference platform for the examples

    [atob] is the forgiving base64 decoder of the HTML standard. The JSON
    reader covers scalars and flat objects of scalars, with integers for
    numbers and no escapes in strings; outside of that it throws where
    [JSON.parse] need not, so it serves the examples only. The same holds
    for the string-to-number conversion, which reads decimal integers. *)

Module Ref.

Definition dq : ascii := ascii_of_nat 34.

Definition b64_ws (c : ascii) : bool :=
  let n := nat_of_ascii c in
  (n =? 9)%nat || (n =? 10)%nat || (n =? 12)%nat || (n =? 13)%nat || (n =? 32)%nat.

Definition sextet (c : ascii) : option Z :=
  let n := Z.of_nat (nat_of_ascii c) in
  if (65 <=? n) && (n <=? 90) then Some (n - 65)
  else if (97 <=? n) && (n <=? 122) then Some (n - 71)
  else if (48 <=? n) && (n <=? 57) then Some (n + 4)
  else if n =? 43 then Some 62
  else if n =? 47 then Some 63
  else None.

Definition byte (n : Z) : ascii := ascii_of_nat (Z.to_nat (n mod 256)).

Fixpoint octets (l : list Z) : list ascii :=
  match l with
  | a :: b :: c :: d :: r =>
      let n := ((a * 64 + b) * 64 + c) * 64 + d in
      byte (n / 65536) :: byte (n / 256) :: byte n :: octets r
  | [a; b; c] =>
      let n := ((a * 64 + b) * 64 + c) / 4 in [byte (n / 256); byte n]
  | [a; b] => [byte ((a * 64 + b) / 16)]
  | _ => []
  end.

Definition strip_padding (l : list ascii) : list ascii :=
  if (length l mod 4 =? 0)%nat then
    match rev l with
    | "="%char :: "="%char :: r => rev r
    | "="%char :: r => rev r
    | _ => l
    end
  else l.

Definition atob (s : string) : option string :=
  let l := strip_padding (filter (fun c => negb (b64_ws c)) (list_ascii_of_string s)) in
  if (length l mod 4 =? 1)%nat then None
  else
    sextets ← mapM sextet l;
    Some (string_of_list_ascii (octets sextets)).

Definition json_ws (c : ascii) : bool :=
  let n := nat_of_ascii c in
  (n =? 9)%nat || (n =? 10)%nat || (n =? 13)%nat || (n =? 32)%nat.

Fixpoint skip (s : string) : string :=
  match s with
  | String c r => if json_ws c then skip r else s
  | EmptyString => s
  end.

(** The characters up to the closing quote, and what follows it. *)
Fixpoint read_string (s : string) : option (string * string) :=
  match s with
  | EmptyString => None
  | String c r =>
      if Ascii.eqb c dq then Some ("", r)
      else if Ascii.eqb c "\"%char then None
      else '(t, rest) ← read_string r; Some (String c t, rest)
  end.

Fixpoint read_digits (s : string) : string * string :=
  match s with
  | String c r =>
      match Js.digit_of c with
      | Some _ => let (d, rest) := read_digits r in (String c d, rest)
      | None => ("", s)
      end
  | EmptyString => ("", s)
  end.

Definition number_ends (rest : string) : bool :=
  match rest with
  | String c _ => negb (Ascii.eqb c "." || Ascii.eqb c "e" || Ascii.eqb c "E")
  | EmptyString => true
  end.

Definition read_number (s : string) : option (Z * string) :=
  let (neg, body) :=
    match s with
    | String "-"%char r => (true, r)
    | _ => (false, s)
    end in
  let (d, rest) := read_digits body in
  match d with
  | EmptyString => None
  | String "0"%char (String _ _) => None
  | _ =>
      if number_ends rest then
        n ← Js.digits_from None d; Some (if neg then - n else n, rest)
      else None
  end.

Definition read_scalar (s : string) : option (Js.Value * string) :=
  match s with
  | String c r =>
      if Ascii.eqb c dq then '(t, rest) ← read_string r; Some (Js.JStr t, rest)
      else if String.prefix "null" s then Some (Js.JNull, String.substring 4 (String.length s - 4) s)
      else if String.prefix "true" s then Some (Js.JBool true, String.substring 4 (String.length s - 4) s)
      else if String.prefix "false" s then Some (Js.JBool false, String.substring 5 (String.length s - 5) s)
      else '(n, rest) ← read_number s; Some (Js.JNum n, rest)
  | EmptyString => None
  end.

(** The members after an opening brace or a comma. *)
Fixpoint read_members (fuel : nat) (s : string)
    : option (list (string * Js.Value) * string) :=
  match fuel with
  | O => None
  | S fuel' =>
      match skip s with
      | String c r =>
          if Ascii.eqb c dq then
            '(k, r1) ← read_string r;
            match skip r1 with
            | String ":"%char r2 =>
                '(v, r3) ← read_scalar (skip r2);
                match skip r3 with
                | String ","%char r4 =>
                    '(ms, r5) ← read_members fuel' r4; Some ((k, v) :: ms, r5)
                | String "}"%char r4 => Some ([(k, v)], r4)
                | _ => None
                end
            | _ => None
            end
          else None
      | EmptyString => None
      end
  end.

Definition JSON_parse (s : string) : option Js.Value :=
  '(v, rest) ←
    match skip s with
    | String "{"%char r =>
        match skip r with
        | String "}"%char r1 => Some (Js.JObj [], r1)
        | _ => '(ms, r1) ← read_members (String.length r) r; Some (Js.JObj ms, r1)
        end
    | t => read_scalar t
    end;
  match skip rest with
  | EmptyString => Some v
  | _ => None
  end.

Definition StringToNumber (s : string) : Js.Num :=
  match Js.trim s with
  | EmptyString => Js.Fin 0
  | t =>
      let (neg, body) :=
        match t with
        | String "-"%char r => (true, r)
        | String "+"%char r => (false, r)
        | _ => (false, t)
        end in
      match read_digits body with
      | (String c d, EmptyString) =>
          match Js.digits_from None (String c d) with
          | Some n => Js.Fin (if neg then - n else n)
          | None => Js.NaN
          end
      | _ => Js.NaN
      end
  end.

End Ref.

(* ------------------------------------------------------------------ *)
(** ** The credential store, [lib/auth.ts] *)

Record Tokens := mkTokens {
  accessToken : option string;
  refreshToken : option string;
  accessExpiry : option Z
}.

Definition ACCESS_KEY := "access_token".
Definition REFRESH_KEY := "refresh_token".
Definition EXP_KEY := "access_expiry".

Definition has_window (w : World) : bool := bool_decide (is_Some (pathname w)).

Definition setTokens (access refresh : string) (accessExpiryMs : Z)
    (w : World) : World :=
  if has_window w then
    set_storage
      (<[EXP_KEY := Js.String_of_Z accessExpiryMs]>
         (<[REFRESH_KEY := refresh]>
            (<[ACCESS_KEY := access]> (localStorage w)))) w
  else w.

(** [Number.parseInt(getItem(EXP_KEY) || "0", 10) || null]: zero and NaN
    are falsy, so both read back as null. *)
Definition read_expiry (item : option string) : option Z :=
  match Js.parseInt (if Js.truthy_str item then default "0" item else "0") with
  | Some n => if n =? 0 then None else Some n
  | None => None
  end.

Definition getTokens (w : World) : Tokens :=
  if has_window w then
    mkTokens (localStorage w !! ACCESS_KEY)
             (localStorage w !! REFRESH_KEY)
             (read_expiry (localStorage w !! EXP_KEY))
  else mkTokens None None None.

Definition hasTokens (w : World) : bool :=
  let t := getTokens w in
  Js.truthy_str (accessToken t) && Js.truthy_str (refreshToken t).

Definition clearTokens (w : World) : World :=
  if has_window w then
    set_storage
      (delete EXP_KEY (delete REFRESH_KEY (delete ACCESS_KEY (localStorage w)))) w
  else w.

Definition isAccessExpired (w : World) : bool :=
  match accessExpiry (getTokens w) with
  | None => true
  | Some e => now w >? e - 10000
  end.

Definition public_path (p : string) : bool :=
  String.eqb p "/login" || String.eqb p "/signup" || String.eqb p "/".

(** [handleAuthError(error)]: the console line and the clearing of the
    store are one [EvAuthError] entry followed by [clearTokens]. *)
Definition handleAuthError (reason : string) (w : World) : World :=
  match pathname w with
  | None => w
  | Some currentPath =>
      let w1 := clearTokens (emit (EvAuthError reason) w) in
      if public_path currentPath then w1 else emit (EvRedirect "/login") w1
  end.

(* ------------------------------------------------------------------ *)
(** ** Example worlds *)

Module Ex.

Definition offline : nat -> NetOutcome :=
  fun _ => mkOutcome 50 (Rejects (mkError "TypeError" "Failed to fetch")).

Definition blank (path : string) (net : nat -> NetOutcome) (t : Z) : World :=
  mkWorld (Some path) ∅ t (Some "https://api.example") None [] net 0%nat [].

(** Access expiry 20000 read at the instant 10000, ten seconds before. *)
Definition at_margin : World :=
  set_now 10000 (setTokens "A1" "R1" 20000 (blank "/chat" offline 0)).

(** A refresh credential whose payload is the empty object: it decodes,
    and carries no expiry claim. *)
Definition no_exp_claim : World :=
  set_now 1000 (setTokens "A1" "h.e30.s" 900000 (blank "/chat" offline 0)).

(** A refresh credential with [exp] 2000, that is the instant 2000000. *)
Definition R2000 : string := "h.eyJleHAiOjIwMDB9.s".

Definition holding (access refresh : string) (expiry t : Z) (path : string)
    (net : nat -> NetOutcome) : World :=
  set_now t (setTokens access refresh expiry (blank path net 0)).

(** A backend that answers every request with 401. *)
Definition unauthorized : nat -> NetOutcome :=
  fun _ => mkOutcome 50 (Responds (mkResponse 401 None)).

(** Signed in with a fresh access credential, against that backend. *)
Definition rejected_session : World :=
  holding "A1" R2000 900000 100000 "/chat" unauthorized.

(** Nothing stored, on a public page. *)
Definition signed_out : World := blank "/" unauthorized 100000.

(** A backend that answers 200 after [ms] milliseconds. *)
Definition slow (ms : Z) : nat -> NetOutcome :=
  fun _ => mkOutcome ms (Responds (mkResponse 200 None)).

Definition slow_session (ms : Z) : World :=
  holding "A1" R2000 900000 100000 "/chat" (slow ms).

(** A backend whose refresh endpoint issues the access credential "A2"
    for 900 seconds and no new refresh credential. *)
Definition renewing : nat -> NetOutcome :=
  fun _ => mkOutcome 50 (Responds (mkResponse 200
             (Some (mkData (Some "A2") None (Some 900) None)))).

(** Signed in, the access credential expired one second ago. *)
Definition expired_session : World :=
  holding "A1" R2000 99000 100000 "/chat" renewing.

(** A sign-in at the instant [t]: the login form writes a pair whose
    access credential is about to expire. *)
Definition sign_in (t : Z) (w : World) : World :=
  set_now t (setTokens "A1" R2000 (t - 1000) w).

(** Signed in on a public page, the refresh credential (expiry instant
    2000000) expired long ago. *)
Definition stale_session : World :=
  holding "A1" R2000 99000 3000000 "/login" renewing.

(** A render on the server: there is no window. *)
Definition server : World :=
  mkWorld None ∅ 0 (Some "https://api.example") None [] offline 0%nat [].

(** A page built without NEXT_PUBLIC_API_BASE_URL. *)
Definition unconfigured : World :=
  mkWorld (Some "/chat") ∅ 0 None None [] offline 0%nat [].

(** A backend that answers every request with 403. *)
Definition forbidden : nat -> NetOutcome :=
  fun _ => mkOutcome 50 (Responds (mkResponse 403 None)).

Definition forbidden_session : World :=
  holding "A1" R2000 900000 100000 "/chat" forbidden.

(** A backend that rejects the first request with 401, then renews the
    credential, then answers 200. *)
Definition recovering : nat -> NetOutcome :=
  fun k =>
    match k with
    | O => mkOutcome 50 (Responds (mkResponse 401 None))
    | S O => mkOutcome 50 (Responds (mkResponse 200
               (Some (mkData (Some "A2") None (Some 900) None))))
    | _ => mkOutcome 50 (Responds (mkResponse 200 None))
    end.

Definition recovering_session : World :=
  holding "A1" R2000 900000 100000 "/chat" recovering.

End Ex.

Section Browser.

(** Built-ins of the platform: [atob] and [JSON.parse] ([None]: they
    throw), and the conversion of a string to a number. *)
Variable atob : string -> option string.
Variable JSON_parse : string -> option Js.Value.
Variable StringToNumber : string -> Js.Num.

(** [Number(v)] for a parsed value or undefined. *)
Definition to_number (v : option Js.Value) : Js.Num :=
  match v with
  | None => Js.NaN
  | Some Js.JNull => Js.Fin 0
  | Some (Js.JBool b) => Js.Fin (if b then 1 else 0)
  | Some (Js.JNum n) => Js.Fin n
  | Some (Js.JStr s) => StringToNumber s
  | Some (Js.JArr items) => StringToNumber (Js.to_string (Js.JArr items))
  | Some (Js.JObj _) => Js.NaN
  end.

(** The body of the [try] of [isRefreshTokenValid] up to [expiry];
    [None] when it throws. A token without a second segment passes
    undefined to [atob], which reads it as the text of that word. *)
Definition decode_expiry (token : string) : option Js.Num :=
  bin ← atob (default "undefined" (Js.split "." token !! 1%nat));
  payload ← JSON_parse bin;
  e ← Js.get_prop payload "exp";
  Some (Js.num_mul (to_number e) 1000).

Definition isRefreshTokenValid (w : World) : bool :=
  match refreshToken (getTokens w) with
  | None => false
  | Some token =>
      if String.eqb token "" then false
      else
        match decode_expiry token with
        | Some expiry => Js.lt_num (now w) (Js.num_sub expiry 5000)
        | None => true
        end
  end.

(** The same check in the words of the specification: the expiry claim
    of the credential is the integer [exp] of its decoded payload, and a
    credential without a decodable claim is usable. *)
Definition exp_claim (token : string) : option Z :=
  bin ← atob (default "undefined" (Js.split "." token !! 1%nat));
  payload ← JSON_parse bin;
  match payload with
  | Js.JObj ms =>
      match Js.member "exp" ms with
      | Some (Js.JNum n) => Some n
      | _ => None
      end
  | _ => None
  end.

Definition isRefreshStillUsable_spec (t : Z) (token : string) : bool :=
  match exp_claim token with
  | Some exp => t <? exp * 1000 - 5000
  | None => true
  end.

(** Decoding throws: [atob] fails, [JSON.parse] fails, or the payload is
    null and has no properties to read. *)
Definition decode_throws (token : string) : Prop :=
  let segment := default "undefined" (Js.split "." token !! 1%nat) in
  atob segment = None \/
  exists bin, atob segment = Some bin /\
    (JSON_parse bin = None \/ JSON_parse bin = Some Js.JNull).

(* ------------------------------------------------------------------ *)
(** ** Requests with a timeout, [lib/api.ts] *)

(** [apiBase()]; [None] when it throws because nothing is configured. *)
Definition apiBase (w : World) : option string :=
  match api_base w with
  | Some base => if String.eqb base "" then None else Some (Js.trim base)
  | None => None
  end.

Definition config_error : JsError :=
  mkError "Error"
    "NEXT_PUBLIC_API_BASE_URL is not configured. Please set it in your environment variables.".

Definition DEFAULT_TIMEOUT : Z := 30000.
Definition CHAT_TIMEOUT : Z := 0.

Definition abort_error : JsError :=
  mkError "AbortError" "The operation was aborted.".

Definition timeout_error : JsError :=
  mkError "Error" "Request timeout - API took too long to respond".

(** What the underlying [fetch] gives under the controller's signal:
    the timer aborts it unless the network settles first. *)
Definition fetch_under_timer (timeout : Z) (o : NetOutcome) : NetResult :=
  if latency o <? timeout then result o else Rejects abort_error.

(** What the promise returned by [fetchWithTimeout] settles with. *)
Definition fetchWithTimeout_result (timeout : Z) (o : NetOutcome) : NetResult :=
  if timeout =? 0 then result o
  else
    match fetch_under_timer timeout o with
    | Responds response => Responds response
    | Rejects error =>
        if String.eqb (err_name error) "AbortError" then Rejects timeout_error
        else Rejects error
    end.

(** Time that passes until that promise settles. *)
Definition elapsed (timeout : Z) (o : NetOutcome) : Z :=
  if timeout =? 0 then latency o else Z.min (latency o) timeout.

(** The synchronous part of [fetchWithTimeout]: the request goes out and
    is the [sent w]-th one. *)
Definition fetchWithTimeout (who : Issuer) (url : string) (init : RequestInit)
    (timeout : Z) (w : World) : nat * World :=
  (sent w, set_sent (S (sent w)) (emit (EvFetch who url init timeout) w)).

(* ------------------------------------------------------------------ *)
(** ** The refresh coordinator *)

Definition new_promise (pr : Promise) (w : World) : nat * World :=
  (length (promises w), set_promises (promises w ++ [pr]) w).

Definition refresh_init (token : string) : RequestInit :=
  mkInit (Some "POST")
         [("Content-Type", "application/json"); ("Accept", "application/json")]
         (Some (BodyJson [("refresh_token", token)]))
         (Some "cors") (Some "omit").

(** The [catch] and [finally] blocks of the renewal. *)
Definition refresh_catch (reason : string) (w : World) : World :=
  set_refreshPromise None
    (handleAuthError reason (emit (EvConsoleError "Token refresh error:") w)).

(** The renewal, from its start to its first suspension: either it has
    already returned (the promise is settled) or it waits for a request. *)
Definition renewal_start (w : World) : Promise * World :=
  match refreshToken (getTokens w) with
  | Some token =>
      if String.eqb token "" then
        (Settled None, handleAuthError "No refresh token" w)
      else if negb (isRefreshTokenValid w) then
        (Settled None, handleAuthError "Refresh token expired" w)
      else
        match apiBase w with
        | None => (Settled None, refresh_catch (err_message config_error) w)
        | Some base =>
            let (k, w1) :=
              fetchWithTimeout ByRefresh (base ++ "/api/auth/refresh")
                (refresh_init token) DEFAULT_TIMEOUT w in
            (Pending k (now w) token, w1)
        end
  | None => (Settled None, handleAuthError "No refresh token" w)
  end.

(** A call of [refreshTokens], up to the promise it returns. The
    assignment to [refreshPromise] happens after the renewal has run to
    its first suspension. *)
Definition refreshTokens (w : World) : nat * World :=
  match refreshPromise w with
  | Some p => (p, w)
  | None =>
      let (pr, w1) := renewal_start w in
      let (p, w2) := new_promise pr w1 in
      (p, set_refreshPromise (Some p) w2)
  end.

Definition or_default (s : option string) (d : string) : string :=
  if Js.truthy_str s then default d s else d.

(** The rest of the renewal once its request has settled with [r]. The
    promise value is what the renewal returns. *)
Definition renewal_resume (token : string) (r : NetResult) (w : World)
    : option string * World :=
  match r with
  | Responds res =>
      if ok res then
        match json res with
        | Some data =>
            let expiry := now w + default 900 (expires_in data) * 1000 in
            (access_token data,
             set_refreshPromise None
               (setTokens (default "undefined" (access_token data))
                          (default token (refresh_token data)) expiry w))
        | None => (None, refresh_catch "Invalid response body" w)
        end
      else
        (None, refresh_catch (or_default (json res ≫= message) "Refresh failed") w)
  | Rejects e => (None, refresh_catch (err_message e) w)
  end.

(** The event "the request of promise [p] settles". *)
Definition settle (p : nat) (w : World) : World :=
  match promises w !! p with
  | Some (Pending k issued token) =>
      let o := network w k in
      let w1 := set_now (Z.max (now w) (issued + elapsed DEFAULT_TIMEOUT o)) w in
      let (v, w2) := renewal_resume token (fetchWithTimeout_result DEFAULT_TIMEOUT o) w1 in
      set_promises (<[p := Settled v]> (promises w2)) w2
  | _ => w
  end.

(** [await p] when nothing else runs in between. *)
Definition await (p : nat) (w : World) : option string * World :=
  match promises w !! p with
  | Some (Settled v) => (v, w)
  | Some (Pending _ _ _) =>
      let w1 := settle p w in
      (match promises w1 !! p with Some (Settled v) => v | _ => None end, w1)
  | None => (None, w)
  end.

Definition await_refreshTokens (w : World) : option string * World :=
  let (p, w1) := refreshTokens w in await p w1.

Definition getValidToken (w : World) : option string * World :=
  match accessToken (getTokens w) with
  | Some access =>
      if String.eqb access "" then await_refreshTokens w
      else if isAccessExpired w then await_refreshTokens w
      else (Some access, w)
  | None => await_refreshTokens w
  end.

(* ------------------------------------------------------------------ *)
(** ** The authorized request executor *)

Definition getTimeoutForEndpoint (pathOrUrl : string) : Z :=
  if Js.includes pathOrUrl "/api/chat" then CHAT_TIMEOUT else DEFAULT_TIMEOUT.

Inductive Outcome :=
| Returned (res : Response)
| Thrown (err : JsError).

Definition auth_required : JsError := mkError "Error" "Authentication required".
Definition auth_failed : JsError := mkError "Error" "Authentication failed".

Definition fullUrl (pathOrUrl : string) (w : World) : option string :=
  if Js.startsWith pathOrUrl "http" then Some pathOrUrl
  else base ← apiBase w; Some (base ++ pathOrUrl).

(** The headers of the outgoing request. *)
Definition auth_headers (init : option RequestInit) (token : option string)
    : list (string * string) :=
  let h := Js.headers_set "Accept" "application/json"
             (default [] (init_headers <$> init)) in
  if Js.truthy_str token then
    Js.headers_set "Authorization" ("Bearer " ++ default "" token) h
  else h.

Definition auth_init (init : option RequestInit) (token : option string)
    : RequestInit :=
  mkInit (init ≫= init_method) (auth_headers init token) (init ≫= init_body)
         (Some "cors") (Some "omit").

(** The [catch] of [fetchWithAuth]: both branches throw the error again,
    the second one after a console line. *)
Definition rethrow (err : JsError) (w : World) : Outcome * World :=
  if Js.includes (err_message err) "Authentication" then (Thrown err, w)
  else (Thrown err, emit (EvConsoleError "API request error:") w).

Definition status_text (n : Z) : string := Js.String_of_Z n.

(** One call of [fetchWithAuth], run with nothing else in between;
    [fuel] bounds the depth of the recursive resend. *)
Fixpoint fetchWithAuth (fuel : nat) (pathOrUrl : string)
    (init : option RequestInit) (retryCount : nat) (w : World)
    : option (Outcome * World) :=
  match fuel with
  | O => None
  | S fuel' =>
      match fullUrl pathOrUrl w with
      | None => Some (Thrown config_error, w)
      | Some url =>
          let (token, w1) := getValidToken w in
          if negb (Js.truthy_str token) && (retryCount =? 0)%nat then
            Some (Thrown auth_required,
                  handleAuthError "No valid token available" w1)
          else
            let timeout := getTimeoutForEndpoint pathOrUrl in
            let (k, w2) :=
              fetchWithTimeout (ByExecutor retryCount) url
                (auth_init init token) timeout w1 in
            let o := network w2 k in
            let w3 := set_now (now w2 + elapsed timeout o) w2 in
            match fetchWithTimeout_result timeout o with
            | Rejects err => Some (rethrow err w3)
            | Responds res =>
                if (status res =? 401) && (retryCount =? 0)%nat then
                  let (newToken, w4) := await_refreshTokens w3 in
                  if negb (Js.truthy_str newToken) then
                    Some (rethrow auth_failed
                            (handleAuthError "Token refresh failed" w4))
                  else fetchWithAuth fuel' pathOrUrl init (S retryCount) w4
                else if (status res =? 401) || (status res =? 403) then
                  Some (Returned res,
                        handleAuthError ("Auth error: " ++ status_text (status res)) w3)
                else Some (Returned res, w3)
            end
      end
  end.

(* ------------------------------------------------------------------ *)
(** ** Several callers on the event loop

    Between two suspensions the code runs alone, so a schedule is a list
    of atomic actions: a caller invokes [refreshTokens] and is handed a
    promise, or the request a promise waits for settles. *)

Inductive Action :=
| Invoke
| Deliver (p : nat).

(** The promises handed to the callers, in order, and the final world. *)
Fixpoint run (acts : list Action) (w : World) : list nat * World :=
  match acts with
  | [] => ([], w)
  | Invoke :: rest =>
      let (p, w1) := refreshTokens w in
      let (ps, w2) := run rest w1 in
      (p :: ps, w2)
  | Deliver p :: rest => run rest (settle p w)
  end.

(** Requests to the refresh endpoint in a log. *)
Definition is_refresh_call (e : Event) : bool :=
  match e with
  | EvFetch ByRefresh _ _ _ => true
  | _ => false
  end.

Definition refresh_calls (l : list Event) : nat :=
  length (List.filter is_refresh_call l).

(** The attempt counters of the executor's requests in a log. *)
Fixpoint attempts (l : list Event) : list nat :=
  match l with
  | [] => []
  | EvFetch (ByExecutor n) _ _ _ :: r => n :: attempts r
  | _ :: r => attempts r
  end.

(** An entry that is not a request of the executor, and a step of the
    world that only appends such entries. *)
Definition no_attempt (e : Event) : Prop :=
  match e with
  | EvFetch (ByExecutor _) _ _ _ => False
  | _ => True
  end.

Definition quiet (w w' : World) : Prop :=
  exists d, log w' = (log w ++ d)%list /\ Forall no_attempt d.

(** An entry that is no request at all, and a step that only appends
    such entries. *)
Definition no_fetch (e : Event) : Prop :=
  match e with
  | EvFetch _ _ _ _ => False
  | _ => True
  end.

Definition calm (w w' : World) : Prop :=
  exists d, log w' = (log w ++ d)%list /\ Forall no_fetch d.

(** A step of the world whose new log entries hold exactly the requests
    of the executor with the attempt counters [l], in this order. *)
Definition traced (l : list nat) (w w' : World) : Prop :=
  exists d, log w' = (log w ++ d)%list /\ attempts d = l.

(** The world right after the executor has sent its request and that
    request has settled. *)
Definition after_request (retryCount : nat) (url : string) (init : RequestInit)
    (timeout : Z) (w : World) : World :=
  let w2 := snd (fetchWithTimeout (ByExecutor retryCount) url init timeout w) in
  set_now (now w2 + elapsed timeout (network w2 (sent w))) w2.

(** The world right after a call of [refreshTokens] has started an
    exchange for the credential [token]. *)
Definition exchange_started (token base : string) (w : World) : World :=
  set_refreshPromise (Some (length (promises w)))
    (set_promises (promises w ++ [Pending (sent w) (now w) token])
       (set_sent (S (sent w))
          (emit (EvFetch ByRefresh (base ++ "/api/auth/refresh")
                   (refresh_init token) DEFAULT_TIMEOUT) w))).

(** The refresh credential of the store can start an exchange. *)
Definition can_refresh (token base : string) (w : World) : Prop :=
  refreshToken (getTokens w) = Some token /\ token <> "" /\
  isRefreshTokenValid w = true /\ apiBase w = Some base.

(** Every exchange in flight is the one the handle points to. *)
Definition one_in_flight (w : World) : Prop :=
  forall p k issued token,
    promises w !! p = Some (Pending k issued token) -> refreshPromise w = Some p.

(** The world after an exchange started by [refreshTokens] in [w] has
    been answered with the body [data] and has settled. *)
Definition exchange_succeeded (token base : string) (data : RefreshData)
    (w : World) : World :=
  let w1 := exchange_started token base w in
  let t := Z.max (now w) (now w + latency (network w (sent w))) in
  let w2 :=
    set_refreshPromise None
      (setTokens (default "undefined" (access_token data))
                 (default token (refresh_token data))
                 (t + default 900 (expires_in data) * 1000) (set_now t w1)) in
  set_promises (<[length (promises w) := Settled (access_token data)]> (promises w2)) w2.

(** The exchange ends without a new credential: the request is rejected
    or times out, the answer is not 2xx, or its body cannot be read. *)
Definition refresh_fails (r : NetResult) : Prop :=
  match r with
  | Rejects _ => True
  | Responds res => ok res = false \/ json res = None
  end.

(* ------------------------------------------------------------------ *)
(** ** The session state, [contexts/auth-context.tsx]

    The two pieces of React state of [AuthProvider] and the paths handed
    to [router.push]. The store is the one of the tab's world; another
    tab of the same origin shares its [localStorage]. *)

Record AuthContext := mkAuth {
  isAuthenticated : bool;
  isLoading : bool;
  pushed : list string
}.

Definition initial_auth : AuthContext := mkAuth false true [].

Definition checkAuth (w : World) (c : AuthContext) : bool * AuthContext :=
  let authed := hasTokens w in
  (authed, mkAuth authed (isLoading c) (pushed c)).

Definition login (c : AuthContext) : AuthContext :=
  mkAuth true (isLoading c) (pushed c).

Definition logout (w : World) (c : AuthContext) : World * AuthContext :=
  (clearTokens w, mkAuth false (isLoading c) (pushed c ++ ["/login"])).

(** The first effect: [checkAuth()] and [setIsLoading(false)]. *)
Definition mount (w : World) (c : AuthContext) : AuthContext :=
  let c1 := snd (checkAuth w c) in
  mkAuth (isAuthenticated c1) false (pushed c1).

(** The listener for storage events; [key] is [e.key], null when the
    other tab called [clear()]. *)
Definition handleStorageChange (key : option string) (w : World)
    (c : AuthContext) : AuthContext :=
  match key with
  | Some k =>
      if String.eqb k "access_token" || String.eqb k "refresh_token"
      then snd (checkAuth w c) else c
  | None => c
  end.

(** The storage events another tab receives for a change of the store
    from [before] to [after]: one per key whose entry differs. *)
Definition storage_events (before after : gmap string string)
    : list (option string) :=
  map Some
    (List.filter (fun k => negb (bool_decide (before !! k = after !! k)))
       [ACCESS_KEY; REFRESH_KEY; EXP_KEY]).

(** [handleLogout] of the chat page: the logout request, whose failure
    is only logged, then [logout()] in the [finally]. *)
Definition handleLogout (fuel : nat) (w : World) (c : AuthContext)
    : option (World * AuthContext) :=
  match fetchWithAuth fuel "/api/auth/logout"
          (Some (mkInit (Some "POST") [] None None None)) 0 w with
  | Some (Returned _, w1) => Some (logout w1 c)
  | Some (Thrown _, w1) =>
      Some (logout (emit (EvConsoleError "Logout API error:") w1) c)
  | None => None
  end.

(* ------------------------------------------------------------------ *)
(** ** Properties of the credential store *)

Lemma digit_of_digit_char (d : Z) :
  0 <= d <= 9 -> Js.digit_of (Js.digit_char d) = Some d.
Proof.
  intros Hd.
  assert (Hcases : d = 0 \/ d = 1 \/ d = 2 \/ d = 3 \/ d = 4 \/ d = 5 \/
                   d = 6 \/ d = 7 \/ d = 8 \/ d = 9) by lia.
  repeat (destruct Hcases as [-> | Hcases]; [reflexivity |]).
  subst d; reflexivity.
Qed.

Lemma pos_digits_step (fuel : nat) (n : Z) (rest : string) :
  Js.pos_digits (S fuel) n rest =
    if n <? 10 then String (Js.digit_char (n mod 10)) rest
    else Js.pos_digits fuel (n / 10) (String (Js.digit_char (n mod 10)) rest).
Proof. reflexivity. Qed.

Lemma digits_from_digit (a : option Z) (d : Z) (rest : string) :
  0 <= d <= 9 ->
  Js.digits_from a (String (Js.digit_char d) rest) =
  Js.digits_from (Some (10 * default 0 a + d)) rest.
Proof.
  intros Hd. cbn [Js.digits_from]. now rewrite digit_of_digit_char.
Qed.

(** The printed digits read back: they shift the accumulator by their
    number of places and add [n]. *)
Lemma digits_from_pos_digits (fuel : nat) :
  forall n rest, 0 <= n < 2 ^ Z.of_nat (S fuel) ->
    exists k, 0 <= k /\ forall a,
      Js.digits_from a (Js.pos_digits (S fuel) n rest) =
      Js.digits_from (Some (default 0 a * 10 ^ k + n)) rest.
Proof.
  induction fuel as [|fuel IH]; intros n rest Hn;
    rewrite pos_digits_step; destruct (n <? 10) eqn:Hlt;
    try (apply Z.ltb_lt in Hlt; exists 1; split; [lia|]; intros a;
         rewrite Z.mod_small by lia; rewrite digits_from_digit by lia;
         rewrite Z.pow_1_r; f_equal; f_equal; lia).
  - apply Z.ltb_ge in Hlt. change (2 ^ Z.of_nat 1) with 2 in Hn. lia.
  - apply Z.ltb_ge in Hlt.
    assert (Hdiv : 0 <= n / 10 < 2 ^ Z.of_nat (S fuel)).
    { split; [apply Z.div_pos; lia|].
      apply Z.div_lt_upper_bound; [lia|].
      rewrite (Nat2Z.inj_succ (S fuel)), Z.pow_succ_r in Hn by lia. lia. }
    destruct (IH (n / 10) (String (Js.digit_char (n mod 10)) rest) Hdiv)
      as (k & Hk0 & Hk).
    exists (Z.succ k). split; [lia|]. intros a. rewrite Hk.
    pose proof (Z.mod_pos_bound n 10 ltac:(lia)).
    rewrite digits_from_digit by lia.
    f_equal. f_equal. rewrite Z.pow_succ_r by lia.
    pose proof (Z.div_mod n 10 ltac:(lia)). cbn [default]. unfold id. lia.
Qed.

(** The first printed character is a digit. *)
Lemma pos_digits_head (fuel : nat) :
  forall n rest, 0 <= n ->
    exists d s, 0 <= d <= 9 /\
      Js.pos_digits (S fuel) n rest = String (Js.digit_char d) s.
Proof.
  induction fuel as [|fuel IH]; intros n rest Hn; rewrite pos_digits_step.
  - destruct (n <? 10).
    + exists (n mod 10), rest.
      split; [pose proof (Z.mod_pos_bound n 10); lia | reflexivity].
    + exists (n mod 10), rest.
      split; [pose proof (Z.mod_pos_bound n 10); lia | reflexivity].
  - destruct (n <? 10).
    + exists (n mod 10), rest.
      split; [pose proof (Z.mod_pos_bound n 10); lia | reflexivity].
    + apply IH. apply Z.div_pos; lia.
Qed.

Lemma parseInt_digit_head (d : Z) (s : string) :
  0 <= d <= 9 ->
  Js.parseInt (String (Js.digit_char d) s) =
  Js.digits_from None (String (Js.digit_char d) s).
Proof.
  intros Hd.
  assert (Hcases : d = 0 \/ d = 1 \/ d = 2 \/ d = 3 \/ d = 4 \/ d = 5 \/
                   d = 6 \/ d = 7 \/ d = 8 \/ d = 9) by lia.
  repeat (destruct Hcases as [-> | Hcases]; [reflexivity |]).
  subst d; reflexivity.
Qed.

Lemma log2_bound (n : Z) :
  0 <= n -> n < 2 ^ Z.of_nat (S (Z.to_nat (Z.log2 n))).
Proof.
  intros Hn. rewrite Nat2Z.inj_succ, Z2Nat.id by apply Z.log2_nonneg.
  destruct (Z.eq_dec n 0) as [-> | Hne]; [reflexivity|].
  apply Z.log2_spec. lia.
Qed.

Lemma parseInt_String_of_Z (e : Z) : Js.parseInt (Js.String_of_Z e) = Some e.
Proof.
  unfold Js.String_of_Z. destruct (e <? 0) eqn:Hneg.
  - apply Z.ltb_lt in Hneg.
    change (Z.opp <$>
      Js.digits_from None
        (Js.pos_digits (S (Z.to_nat (Z.log2 (- e)))) (- e) "") = Some e).
    destruct (digits_from_pos_digits (Z.to_nat (Z.log2 (- e))) (- e) "")
      as (k & _ & Hk); [split; [lia | apply log2_bound; lia]|].
    rewrite Hk. cbn. f_equal. lia.
  - apply Z.ltb_ge in Hneg.
    destruct (pos_digits_head (Z.to_nat (Z.log2 e)) e "" Hneg)
      as (d & s & Hd & Hs).
    rewrite Hs, parseInt_digit_head, <- Hs by exact Hd.
    destruct (digits_from_pos_digits (Z.to_nat (Z.log2 e)) e "")
      as (k & _ & Hk); [split; [lia | apply log2_bound; lia]|].
    rewrite Hk. cbn. f_equal.
Qed.

Lemma String_of_Z_nonempty (e : Z) : Js.String_of_Z e <> "".
Proof.
  intros Heq. pose proof (parseInt_String_of_Z e) as Hp.
  rewrite Heq in Hp. discriminate Hp.
Qed.

(** A written expiry reads back as itself, except zero, which reads back
    as no expiry. *)
Lemma read_expiry_String_of_Z (e : Z) :
  read_expiry (Some (Js.String_of_Z e)) = if e =? 0 then None else Some e.
Proof.
  unfold read_expiry, Js.truthy_str.
  destruct (String.eqb_spec (Js.String_of_Z e) "") as [Heq|_].
  - now apply String_of_Z_nonempty in Heq.
  - cbn -[Js.parseInt Js.String_of_Z]. now rewrite parseInt_String_of_Z.
Qed.

Lemma has_window_set_storage (m : gmap string string) (w : World) :
  has_window (set_storage m w) = has_window w.
Proof. reflexivity. Qed.

Lemma getTokens_setTokens (access refresh : string) (e : Z) (w : World) :
  has_window w = true ->
  getTokens (setTokens access refresh e w) =
  mkTokens (Some access) (Some refresh) (if e =? 0 then None else Some e).
Proof.
  intros Hw. unfold setTokens. rewrite Hw. unfold getTokens.
  rewrite has_window_set_storage, Hw. cbn [localStorage set_storage].
  f_equal.
  - rewrite !lookup_insert_ne by discriminate. apply lookup_insert_eq.
  - rewrite lookup_insert_ne by discriminate. apply lookup_insert_eq.
  - rewrite lookup_insert_eq. apply read_expiry_String_of_Z.
Qed.

Lemma getTokens_clearTokens (w : World) :
  getTokens (clearTokens w) = mkTokens None None None.
Proof.
  unfold clearTokens. destruct (has_window w) eqn:Hw.
  - unfold getTokens. rewrite has_window_set_storage, Hw.
    cbn [localStorage set_storage]. f_equal.
    + rewrite !lookup_delete_ne by discriminate. apply lookup_delete_eq.
    + rewrite lookup_delete_ne by discriminate. apply lookup_delete_eq.
    + now rewrite lookup_delete_eq.
  - unfold getTokens. now rewrite Hw.
Qed.

Lemma getTokens_set_now (t : Z) (w : World) :
  getTokens (set_now t w) = getTokens w.
Proof. reflexivity. Qed.

(** C5 (as amended): an expiry instant [e] recorded by [setTokens] makes
    [isAccessExpired] true at the instant [t] exactly when [t] is strictly
    later than [e] minus ten seconds; a recorded zero, and a cleared
    store, count as no expiry and give true. *)
Theorem isAccessExpired_strict_margin
    (access refresh : string) (e t : Z) (w : World) :
  has_window w = true ->
  isAccessExpired (set_now t (setTokens access refresh e w)) =
    (if e =? 0 then true else t >? e - 10000) /\
  isAccessExpired (set_now t (clearTokens w)) = true.
Proof.
  intros Hw. unfold isAccessExpired.
  rewrite !getTokens_set_now, getTokens_setTokens, getTokens_clearTokens by exact Hw.
  cbn [accessExpiry now set_now]. now destruct (e =? 0).
Qed.

Lemma isRefreshTokenValid_stored (w : World) (token : string) :
  refreshToken (getTokens w) = Some token -> token <> "" ->
  isRefreshTokenValid w =
    match decode_expiry token with
    | Some expiry => Js.lt_num (now w) (Js.num_sub expiry 5000)
    | None => true
    end.
Proof.
  intros Hstored Hne. unfold isRefreshTokenValid. rewrite Hstored.
  now destruct (String.eqb_spec token "").
Qed.

(** C6 (as amended): for a stored refresh credential, [isRefreshTokenValid]
    is true exactly when now < exp * 1000 - 5000 if the payload is an
    object with an integer [exp], and it is true whenever decoding
    throws. *)
Theorem isRefreshTokenValid_margin (w : World) (token : string) :
  refreshToken (getTokens w) = Some token -> token <> "" ->
  (forall exp, exp_claim token = Some exp ->
     isRefreshTokenValid w = (now w <? exp * 1000 - 5000)) /\
  (decode_throws token -> isRefreshTokenValid w = true).
Proof.
  intros Hstored Hne.
  rewrite (isRefreshTokenValid_stored w token Hstored Hne).
  unfold exp_claim, decode_throws, decode_expiry. split.
  - intros exp Hclaim.
    destruct (atob _) as [bin|]; [|discriminate Hclaim]. cbn in Hclaim |- *.
    destruct (JSON_parse bin) as [payload|]; [|discriminate Hclaim].
    cbn in Hclaim |- *.
    destruct payload as [| | | | |ms]; try discriminate Hclaim.
    cbn. destruct (Js.member "exp" ms) as [[| |n| | |]|];
      try discriminate Hclaim.
    injection Hclaim as ->. reflexivity.
  - intros [Hatob | (bin & Hatob & [Hparse | Hparse])]; rewrite Hatob; cbn.
    + reflexivity.
    + now rewrite Hparse.
    + now rewrite Hparse.
Qed.

(* ------------------------------------------------------------------ *)
(** ** What the coordinator leaves in the log *)

Lemma attempts_app (l1 l2 : list Event) :
  attempts (l1 ++ l2)%list = (attempts l1 ++ attempts l2)%list.
Proof.
  induction l1 as [|e l1 IH]; [reflexivity|].
  destruct e as [| | |[|n] ? ? ?]; cbn; now rewrite IH.
Qed.

Lemma attempts_quiet (d : list Event) : Forall no_attempt d -> attempts d = [].
Proof.
  induction 1 as [|e d He _ IH]; [reflexivity|].
  destruct e as [| | |[|n] ? ? ?]; cbn in *; [assumption..|contradiction].
Qed.

Lemma quiet_refl (w : World) : quiet w w.
Proof. exists []. split; [now rewrite app_nil_r | constructor]. Qed.

Lemma quiet_trans (w1 w2 w3 : World) : quiet w1 w2 -> quiet w2 w3 -> quiet w1 w3.
Proof.
  intros (d1 & H1 & F1) (d2 & H2 & F2). exists (d1 ++ d2)%list. split.
  - now rewrite H2, H1, app_assoc.
  - now apply Forall_app.
Qed.

Lemma quiet_same_log (w w' : World) : log w' = log w -> quiet w w'.
Proof. intros H. exists []. split; [now rewrite app_nil_r | constructor]. Qed.

Lemma quiet_emit (e : Event) (w : World) : no_attempt e -> quiet w (emit e w).
Proof. intros He. exists [e]. split; [reflexivity | now repeat constructor]. Qed.

Lemma log_clearTokens (w : World) : log (clearTokens w) = log w.
Proof. unfold clearTokens. now destruct (has_window w). Qed.

Lemma log_setTokens (a r : string) (e : Z) (w : World) :
  log (setTokens a r e w) = log w.
Proof. unfold setTokens. now destruct (has_window w). Qed.

Lemma calm_refl (w : World) : calm w w.
Proof. exists []. split; [now rewrite app_nil_r | constructor]. Qed.

Lemma calm_trans (w1 w2 w3 : World) : calm w1 w2 -> calm w2 w3 -> calm w1 w3.
Proof.
  intros (d1 & H1 & F1) (d2 & H2 & F2). exists (d1 ++ d2)%list. split.
  - now rewrite H2, H1, app_assoc.
  - now apply Forall_app.
Qed.

Lemma calm_same_log (w w' : World) : log w' = log w -> calm w w'.
Proof. intros H. exists []. split; [now rewrite app_nil_r | constructor]. Qed.

Lemma calm_emit (e : Event) (w : World) : no_fetch e -> calm w (emit e w).
Proof. intros He. exists [e]. split; [reflexivity | now repeat constructor]. Qed.

Lemma calm_quiet (w w' : World) : calm w w' -> quiet w w'.
Proof.
  intros (d & Hlog & Hd). exists d. split; [exact Hlog|].
  eapply Forall_impl; [exact Hd|]. now intros [| | |[|n] ? ? ?].
Qed.

Lemma handleAuthError_calm (reason : string) (w : World) :
  calm w (handleAuthError reason w).
Proof.
  unfold handleAuthError. destruct (pathname w) as [path|]; [|apply calm_refl].
  assert (H1 : calm w (clearTokens (emit (EvAuthError reason) w))).
  { eapply calm_trans; [apply (calm_emit (EvAuthError reason)); exact I|].
    apply calm_same_log, log_clearTokens. }
  destruct (public_path path); [exact H1|].
  eapply calm_trans; [exact H1 | apply calm_emit; exact I].
Qed.

Lemma refresh_catch_calm (reason : string) (w : World) :
  calm w (refresh_catch reason w).
Proof.
  unfold refresh_catch.
  eapply calm_trans; [apply (calm_emit (EvConsoleError "Token refresh error:")); exact I|].
  eapply calm_trans; [apply handleAuthError_calm|].
  now apply calm_same_log.
Qed.

Lemma handleAuthError_quiet (reason : string) (w : World) :
  quiet w (handleAuthError reason w).
Proof. apply calm_quiet, handleAuthError_calm. Qed.

Lemma refresh_catch_quiet (reason : string) (w : World) :
  quiet w (refresh_catch reason w).
Proof. apply calm_quiet, refresh_catch_calm. Qed.

Lemma renewal_start_quiet (w : World) : quiet w (snd (renewal_start w)).
Proof.
  unfold renewal_start.
  destruct (refreshToken (getTokens w)) as [token|];
    [|apply handleAuthError_quiet].
  destruct (String.eqb token ""); [apply handleAuthError_quiet|].
  destruct (negb (isRefreshTokenValid w)); [apply handleAuthError_quiet|].
  destruct (apiBase w) as [base|]; [|apply refresh_catch_quiet].
  cbn. eapply quiet_trans; [apply quiet_emit|apply quiet_same_log; reflexivity].
  exact I.
Qed.

Lemma refreshTokens_quiet (w : World) : quiet w (snd (refreshTokens w)).
Proof.
  unfold refreshTokens.
  destruct (refreshPromise w); [apply quiet_refl|].
  pose proof (renewal_start_quiet w) as Hq.
  destruct (renewal_start w) as [pr w1]. cbn in *.
  eapply quiet_trans; [exact Hq | now apply quiet_same_log].
Qed.

Lemma renewal_resume_calm (token : string) (r : NetResult) (w : World) :
  calm w (snd (renewal_resume token r w)).
Proof.
  unfold renewal_resume. destruct r as [res|e]; [|apply refresh_catch_calm].
  destruct (ok res); [|apply refresh_catch_calm].
  destruct (json res) as [data|]; [|apply refresh_catch_calm].
  cbn. apply calm_same_log. cbn. apply log_setTokens.
Qed.

(** The rest of an exchange sends nothing. *)
Lemma settle_calm (p : nat) (w : World) : calm w (settle p w).
Proof.
  unfold settle. destruct (promises w !! p) as [[k issued token|v]|];
    try apply calm_refl.
  match goal with |- context [renewal_resume ?t ?r ?w1] =>
    pose proof (renewal_resume_calm t r w1) as Hq;
    destruct (renewal_resume t r w1) as [v w2] end.
  cbn in *. eapply calm_trans; [|apply calm_same_log; reflexivity].
  eapply calm_trans; [|exact Hq]. now apply calm_same_log.
Qed.

Lemma settle_quiet (p : nat) (w : World) : quiet w (settle p w).
Proof. apply calm_quiet, settle_calm. Qed.

Lemma await_quiet (p : nat) (w : World) : quiet w (snd (await p w)).
Proof.
  unfold await. destruct (promises w !! p) as [[k issued token|v]|];
    try apply quiet_refl.
  apply settle_quiet.
Qed.

Lemma await_refreshTokens_quiet (w : World) :
  quiet w (snd (await_refreshTokens w)).
Proof.
  unfold await_refreshTokens. pose proof (refreshTokens_quiet w) as Hq.
  destruct (refreshTokens w) as [p w1]. cbn in Hq.
  eapply quiet_trans; [exact Hq | apply await_quiet].
Qed.

Lemma getValidToken_quiet (w : World) : quiet w (snd (getValidToken w)).
Proof.
  unfold getValidToken.
  destruct (accessToken (getTokens w)) as [access|];
    [|apply await_refreshTokens_quiet].
  destruct (String.eqb access ""); [apply await_refreshTokens_quiet|].
  destruct (isAccessExpired w); [apply await_refreshTokens_quiet|].
  apply quiet_refl.
Qed.

(* ------------------------------------------------------------------ *)
(** ** The executor: bounded retry *)

Lemma traced_quiet (w w' : World) : quiet w w' -> traced [] w w'.
Proof.
  intros (d & Hlog & Hd). exists d. split; [exact Hlog | now apply attempts_quiet].
Qed.

Lemma traced_trans (l1 l2 : list nat) (w1 w2 w3 : World) :
  traced l1 w1 w2 -> traced l2 w2 w3 -> traced (l1 ++ l2)%list w1 w3.
Proof.
  intros (d1 & H1 & A1) (d2 & H2 & A2). exists (d1 ++ d2)%list. split.
  - now rewrite H2, H1, app_assoc.
  - now rewrite attempts_app, A1, A2.
Qed.

Lemma traced_request (n : nat) (url : string) (init : RequestInit)
    (timeout : Z) (w : World) :
  traced [n] w (after_request n url init timeout w).
Proof. exists [EvFetch (ByExecutor n) url init timeout]. now split. Qed.

Lemma rethrow_quiet (err : JsError) (w : World) : quiet w (snd (rethrow err w)).
Proof.
  unfold rethrow. destruct (Js.includes _ _); [apply quiet_refl|].
  apply quiet_emit. exact I.
Qed.

Lemma rethrow_throws (err : JsError) (w : World) : fst (rethrow err w) = Thrown err.
Proof. unfold rethrow. now destruct (Js.includes _ _). Qed.

(** One unfolding of [fetchWithAuth], with the request named. *)
Lemma fetchWithAuth_step (fuel : nat) (pathOrUrl : string)
    (init : option RequestInit) (retryCount : nat) (w : World) :
  fetchWithAuth (S fuel) pathOrUrl init retryCount w =
    match fullUrl pathOrUrl w with
    | None => Some (Thrown config_error, w)
    | Some url =>
        let (token, w1) := getValidToken w in
        if negb (Js.truthy_str token) && (retryCount =? 0)%nat then
          Some (Thrown auth_required,
                handleAuthError "No valid token available" w1)
        else
          let timeout := getTimeoutForEndpoint pathOrUrl in
          let w3 := after_request retryCount url (auth_init init token) timeout w1 in
          match fetchWithTimeout_result timeout (network w1 (sent w1)) with
          | Rejects err => Some (rethrow err w3)
          | Responds res =>
              if (status res =? 401) && (retryCount =? 0)%nat then
                let (newToken, w4) := await_refreshTokens w3 in
                if negb (Js.truthy_str newToken) then
                  Some (rethrow auth_failed
                          (handleAuthError "Token refresh failed" w4))
                else fetchWithAuth fuel pathOrUrl init (S retryCount) w4
              else if (status res =? 401) || (status res =? 403) then
                Some (Returned res,
                      handleAuthError ("Auth error: " ++ status_text (status res)) w3)
              else Some (Returned res, w3)
          end
    end.
Proof. reflexivity. Qed.

(** A resent call makes at most one request and never calls itself. *)
Lemma fetchWithAuth_resend (fuel : nat) (pathOrUrl : string)
    (init : option RequestInit) (n : nat) (w : World) :
  exists out w', fetchWithAuth (S fuel) pathOrUrl init (S n) w = Some (out, w') /\
    (traced [] w w' \/ traced [S n] w w').
Proof.
  rewrite fetchWithAuth_step.
  destruct (fullUrl pathOrUrl w) as [url|].
  2:{ eexists _, _. split; [reflexivity|]. left. apply traced_quiet, quiet_refl. }
  pose proof (getValidToken_quiet w) as Hq.
  destruct (getValidToken w) as [token w1]. cbn [snd] in Hq.
  rewrite andb_false_r. cbv zeta.
  set (timeout := getTimeoutForEndpoint pathOrUrl).
  set (w3 := after_request (S n) url (auth_init init token) timeout w1).
  assert (H3 : traced [S n] w w3).
  { apply (traced_trans [] [S n] w w1 w3);
      [now apply traced_quiet | apply traced_request]. }
  destruct (fetchWithTimeout_result timeout _) as [res|err].
  - rewrite andb_false_r.
    destruct ((status res =? 401) || (status res =? 403)).
    + eexists _, _. split; [reflexivity|]. right.
      apply (traced_trans [S n] [] w w3); [exact H3|].
      apply traced_quiet, handleAuthError_quiet.
    + eexists _, _. split; [reflexivity|]. now right.
  - exists (fst (rethrow err w3)), (snd (rethrow err w3)).
    split; [now destruct (rethrow err w3)|]. right.
    apply (traced_trans [S n] [] w w3); [exact H3|].
    apply traced_quiet, rethrow_quiet.
Qed.

(** C3: a call of the executor (attempt counter 0, two units of fuel or
    more) returns, and the requests it has sent carry the counters [],
    [0] or [0; 1]: at most two attempts, the resend with counter 1, no
    counter above 1. A 401 or 403 answer to a resent call (counter 1) is
    returned to the caller after [handleAuthError], with that one request
    and no further attempt. *)
Theorem fetchWithAuth_at_most_two_attempts (fuel : nat) (pathOrUrl : string)
    (init : option RequestInit) (w : World) :
  (2 <= fuel)%nat ->
  (exists out w', fetchWithAuth fuel pathOrUrl init 0 w = Some (out, w') /\
     (traced [] w w' \/ traced [0%nat] w w' \/ traced [0%nat; 1%nat] w w')) /\
  (forall url token w1 res,
     fullUrl pathOrUrl w = Some url ->
     getValidToken w = (token, w1) ->
     fetchWithTimeout_result (getTimeoutForEndpoint pathOrUrl)
       (network w1 (sent w1)) = Responds res ->
     status res = 401 \/ status res = 403 ->
     let w3 := after_request 1 url (auth_init init token)
                 (getTimeoutForEndpoint pathOrUrl) w1 in
     fetchWithAuth fuel pathOrUrl init 1 w =
       Some (Returned res,
             handleAuthError ("Auth error: " ++ status_text (status res)) w3) /\
     traced [1%nat] w
       (handleAuthError ("Auth error: " ++ status_text (status res)) w3)).
Proof.
  intros Hfuel. destruct fuel as [|[|fuel]]; [lia..|]. split.
  - rewrite fetchWithAuth_step.
    destruct (fullUrl pathOrUrl w) as [url|].
    2:{ eexists _, _. split; [reflexivity|]. left. apply traced_quiet, quiet_refl. }
    pose proof (getValidToken_quiet w) as Hq.
    destruct (getValidToken w) as [token w1]. cbn [snd] in Hq.
    rewrite andb_true_r. destruct (negb (Js.truthy_str token)).
    { eexists _, _. split; [reflexivity|]. left. apply traced_quiet.
      eapply quiet_trans; [exact Hq | apply handleAuthError_quiet]. }
    cbv zeta. set (timeout := getTimeoutForEndpoint pathOrUrl).
    set (w3 := after_request 0 url (auth_init init token) timeout w1).
    assert (H3 : traced [0%nat] w w3).
    { apply (traced_trans [] [0%nat] w w1 w3);
        [now apply traced_quiet | apply traced_request]. }
    destruct (fetchWithTimeout_result timeout _) as [res|err].
    2:{ exists (fst (rethrow err w3)), (snd (rethrow err w3)).
        split; [now destruct (rethrow err w3)|]. right; left.
        apply (traced_trans [0%nat] [] w w3); [exact H3|].
        apply traced_quiet, rethrow_quiet. }
    rewrite andb_true_r. destruct (status res =? 401) eqn:H401.
    + pose proof (await_refreshTokens_quiet w3) as Hq4.
      destruct (await_refreshTokens w3) as [newToken w4]. cbn [snd] in Hq4.
      assert (H4 : traced [0%nat] w w4).
      { apply (traced_trans [0%nat] [] w w3 w4); [exact H3|].
        now apply traced_quiet. }
      destruct (negb (Js.truthy_str newToken)).
      * set (w5 := handleAuthError "Token refresh failed" w4).
        exists (fst (rethrow auth_failed w5)), (snd (rethrow auth_failed w5)).
        split; [now destruct (rethrow auth_failed w5)|]. right; left.
        apply (traced_trans [0%nat] [] w w4); [exact H4|]. apply traced_quiet.
        eapply quiet_trans; [apply handleAuthError_quiet | apply rethrow_quiet].
      * destruct (fetchWithAuth_resend fuel pathOrUrl init 0 w4)
          as (out & w' & Hrun & [Htr | Htr]).
        -- exists out, w'. split; [exact Hrun|]. right; left.
           apply (traced_trans [0%nat] [] w w4 w'); assumption.
        -- exists out, w'. split; [exact Hrun|]. right; right.
           apply (traced_trans [0%nat] [1%nat] w w4 w'); assumption.
    + cbn [orb]. destruct (status res =? 403).
      * eexists _, _. split; [reflexivity|]. right; left.
        apply (traced_trans [0%nat] [] w w3); [exact H3|].
        apply traced_quiet, handleAuthError_quiet.
      * eexists _, _. split; [reflexivity|]. right; left. exact H3.
  - intros url token w1 res Hurl Htoken Hres Hstatus w3.
    rewrite fetchWithAuth_step, Hurl, Htoken, andb_false_r. cbv zeta.
    rewrite Hres, andb_false_r.
    assert (Hor : (status res =? 401) || (status res =? 403) = true).
    { destruct Hstatus as [-> | ->]; reflexivity. }
    rewrite Hor. split; [reflexivity|].
    pose proof (getValidToken_quiet w) as Hq. rewrite Htoken in Hq.
    apply (traced_trans [] [1%nat] w w1); [now apply traced_quiet|].
    apply (traced_trans [1%nat] [] w1 w3); [apply traced_request|].
    apply traced_quiet, handleAuthError_quiet.
Qed.

(* ------------------------------------------------------------------ *)
(** ** The executor: failures of authentication *)

(** After [handleAuthError] the store reads as empty. *)
Lemma getTokens_handleAuthError (reason : string) (w : World) :
  getTokens (handleAuthError reason w) = mkTokens None None None.
Proof.
  unfold handleAuthError. destruct (pathname w) as [path|] eqn:Hp.
  - destruct (public_path path);
      [apply getTokens_clearTokens|].
    change (getTokens (clearTokens (emit (EvAuthError reason) w)) =
            mkTokens None None None).
    apply getTokens_clearTokens.
  - unfold getTokens, has_window. rewrite Hp. reflexivity.
Qed.

(** C8: on a first attempt for which no access credential is resolved,
    the call throws the error "Authentication required" after
    [handleAuthError], which leaves the store empty; the executor has sent
    no request. *)
Theorem fetchWithAuth_authentication_required (fuel : nat) (pathOrUrl : string)
    (init : option RequestInit) (w w1 : World) (url : string)
    (token : option string) :
  fullUrl pathOrUrl w = Some url ->
  getValidToken w = (token, w1) ->
  Js.truthy_str token = false ->
  let w' := handleAuthError "No valid token available" w1 in
  fetchWithAuth (S fuel) pathOrUrl init 0 w = Some (Thrown auth_required, w') /\
  err_message auth_required = "Authentication required" /\
  getTokens w' = mkTokens None None None /\
  traced [] w w'.
Proof.
  intros Hurl Htoken Hfalsy w'.
  rewrite fetchWithAuth_step, Hurl, Htoken, Hfalsy. cbn [negb andb Nat.eqb].
  repeat split.
  - apply getTokens_handleAuthError.
  - apply traced_quiet. pose proof (getValidToken_quiet w) as Hq.
    rewrite Htoken in Hq. eapply quiet_trans; [exact Hq|].
    apply handleAuthError_quiet.
Qed.

Lemma includes_auth_failed :
  Js.includes (err_message auth_failed) "Authentication" = true.
Proof. reflexivity. Qed.

(** C4 (as amended): when the first attempt is answered with 401 and the
    coordinator then yields no credential, the executor calls
    [handleAuthError] once more and throws the error "Authentication
    failed"; the 401 response is not returned, and nothing is resent. *)
Theorem fetchWithAuth_refresh_failed (fuel : nat) (pathOrUrl : string)
    (init : option RequestInit) (w w1 w4 : World) (url : string)
    (token newToken : option string) (res : Response) :
  fullUrl pathOrUrl w = Some url ->
  getValidToken w = (token, w1) ->
  Js.truthy_str token = true ->
  fetchWithTimeout_result (getTimeoutForEndpoint pathOrUrl)
    (network w1 (sent w1)) = Responds res ->
  status res = 401 ->
  await_refreshTokens
    (after_request 0 url (auth_init init token)
       (getTimeoutForEndpoint pathOrUrl) w1) = (newToken, w4) ->
  Js.truthy_str newToken = false ->
  let w' := handleAuthError "Token refresh failed" w4 in
  fetchWithAuth (S fuel) pathOrUrl init 0 w = Some (Thrown auth_failed, w') /\
  err_message auth_failed = "Authentication failed" /\
  traced [0%nat] w w'.
Proof.
  intros Hurl Htoken Htruthy Hres H401 Hrefresh Hfalsy w'.
  rewrite fetchWithAuth_step, Hurl, Htoken, Htruthy. cbn [negb andb]. cbv zeta.
  rewrite Hres, H401. cbn [Z.eqb Pos.eqb andb Nat.eqb].
  rewrite Hrefresh, Hfalsy. cbn [negb].
  unfold rethrow. rewrite includes_auth_failed.
  repeat split.
  pose proof (getValidToken_quiet w) as Hq. rewrite Htoken in Hq.
  pose proof (await_refreshTokens_quiet
    (after_request 0 url (auth_init init token)
       (getTimeoutForEndpoint pathOrUrl) w1)) as Hq4.
  rewrite Hrefresh in Hq4. cbn [snd] in Hq, Hq4.
  apply (traced_trans [] [0%nat] w w1); [now apply traced_quiet|].
  eapply (traced_trans [0%nat] [] w1); [apply traced_request|].
  apply traced_quiet. eapply quiet_trans; [exact Hq4|].
  apply handleAuthError_quiet.
Qed.

Lemma headers_get_set_other (name k v : string) (hs : list (string * string)) :
  Js.lowercase k <> Js.lowercase name ->
  Js.headers_get name (Js.headers_set k v hs) = Js.headers_get name hs.
Proof.
  intros Hne. unfold Js.headers_get, Js.headers_set. f_equal.
  induction hs as [|h hs IH]; cbn [List.filter app find fst].
  - destruct (String.eqb_spec (Js.lowercase k) (Js.lowercase name));
      [contradiction | reflexivity].
  - destruct (String.eqb_spec (Js.lowercase (fst h)) (Js.lowercase k)) as [Hk|Hk];
      cbn [negb app find].
    + rewrite Hk.
      destruct (String.eqb_spec (Js.lowercase k) (Js.lowercase name));
        [contradiction | exact IH].
    + destruct (String.eqb (Js.lowercase (fst h)) (Js.lowercase name));
        [reflexivity | exact IH].
Qed.

Lemma rethrow_calm (err : JsError) (w : World) : calm w (snd (rethrow err w)).
Proof.
  unfold rethrow. destruct (Js.includes _ _); [apply calm_refl|].
  apply calm_emit. exact I.
Qed.

(** C10: on a resent call (attempt counter 1) for which no access
    credential is resolved, the call does not stop at the guard
    "Authentication required": it sends its request, and that is the only
    request it sends. The request carries the caller's headers with
    [Accept] set and no [Authorization] header set by the executor; what
    the call returns or throws is what that request was answered or
    failed with. *)
Theorem fetchWithAuth_resend_without_token (fuel : nat) (pathOrUrl : string)
    (init : option RequestInit) (w w1 : World) (url : string)
    (token : option string) :
  fullUrl pathOrUrl w = Some url ->
  getValidToken w = (token, w1) ->
  Js.truthy_str token = false ->
  let timeout := getTimeoutForEndpoint pathOrUrl in
  let request := auth_init init token in
  let theirs := default [] (init_headers <$> init) in
  (exists out w',
     fetchWithAuth (S fuel) pathOrUrl init 1 w = Some (out, w') /\
     traced [1%nat] w w' /\
     (forall e, out = Thrown e ->
        fetchWithTimeout_result timeout (network w1 (sent w1)) = Rejects e) /\
     (forall res,
        fetchWithTimeout_result timeout (network w1 (sent w1)) = Responds res ->
        out = Returned res) /\
     exists rest,
       log w' =
         (log w1 ++
          EvFetch (ByExecutor 1) url
            (mkInit (init ≫= init_method)
               (Js.headers_set "Accept" "application/json" theirs)
               (init ≫= init_body) (Some "cors") (Some "omit"))
            timeout :: rest)%list /\
       Forall no_fetch rest) /\
  log (after_request 1 url request timeout w1) =
    (log w1 ++ [EvFetch (ByExecutor 1) url request timeout])%list /\
  init_headers request = Js.headers_set "Accept" "application/json" theirs /\
  Js.headers_get "Authorization" (init_headers request) =
    Js.headers_get "Authorization" theirs.
Proof.
  intros Hurl Htoken Hfalsy timeout request theirs.
  assert (Hheaders : init_headers request =
            Js.headers_set "Accept" "application/json" theirs).
  { unfold request, auth_init, auth_headers. cbn [init_headers].
    now rewrite Hfalsy. }
  assert (Hrequest : request =
            mkInit (init ≫= init_method)
              (Js.headers_set "Accept" "application/json" theirs)
              (init ≫= init_body) (Some "cors") (Some "omit")).
  { unfold request, auth_init, auth_headers. now rewrite Hfalsy. }
  split; [|split; [reflexivity | split; [exact Hheaders|]]].
  2:{ rewrite Hheaders. apply headers_get_set_other. discriminate. }
  rewrite fetchWithAuth_step, Hurl, Htoken, andb_false_r. cbv zeta.
  fold timeout. fold request.
  set (w3 := after_request 1 url request timeout w1).
  assert (H3 : traced [1%nat] w w3).
  { pose proof (getValidToken_quiet w) as Hq. rewrite Htoken in Hq.
    apply (traced_trans [] [1%nat] w w1 w3);
      [now apply traced_quiet | apply traced_request]. }
  assert (Hlog : forall w', calm w3 w' ->
            exists rest,
              log w' =
                (log w1 ++
                 EvFetch (ByExecutor 1) url
                   (mkInit (init ≫= init_method)
                      (Js.headers_set "Accept" "application/json" theirs)
                      (init ≫= init_body) (Some "cors") (Some "omit"))
                   timeout :: rest)%list /\
              Forall no_fetch rest).
  { intros w' (d & Hd & Hfd). exists d. split; [|exact Hfd].
    rewrite Hd, <- Hrequest. unfold w3, after_request, fetchWithTimeout.
    cbn [snd log set_now set_sent emit]. now rewrite <- app_assoc. }
  destruct (fetchWithTimeout_result timeout _) as [res|err].
  - rewrite andb_false_r.
    destruct ((status res =? 401) || (status res =? 403)).
    + eexists _, _. split; [reflexivity|]. split; [|split; [discriminate|split]].
      * apply (traced_trans [1%nat] [] w w3); [exact H3|].
        apply traced_quiet, handleAuthError_quiet.
      * intros res' Hres'. now injection Hres' as ->.
      * apply Hlog, handleAuthError_calm.
    + eexists _, _. split; [reflexivity|].
      split; [exact H3 | split; [discriminate|split]].
      * intros res' Hres'. now injection Hres' as ->.
      * apply Hlog, calm_refl.
  - exists (fst (rethrow err w3)), (snd (rethrow err w3)).
    split; [now destruct (rethrow err w3)|]. split; [|split; [|split]].
    + apply (traced_trans [1%nat] [] w w3); [exact H3|].
      apply traced_quiet, rethrow_quiet.
    + intros e He. rewrite rethrow_throws in He. now injection He as ->.
    + discriminate.
    + apply Hlog, rethrow_calm.
Qed.

(* ------------------------------------------------------------------ *)
(** ** The executor: timeouts *)


(* ------------------------------------------------------------------ *)
(** ** The coordinator: one exchange *)

Lemma refreshTokens_starts (token base : string) (w : World) :
  refreshPromise w = None -> can_refresh token base w ->
  refreshTokens w = (length (promises w), exchange_started token base w).
Proof.
  intros Hnull (Hstored & Hne & Hvalid & Hbase).
  unfold refreshTokens, renewal_start. rewrite Hnull, Hstored.
  destruct (String.eqb_spec token "") as [|_]; [contradiction|].
  rewrite Hvalid, Hbase. reflexivity.
Qed.

Lemma refreshTokens_attaches (p : nat) (w : World) :
  refreshPromise w = Some p -> refreshTokens w = (p, w).
Proof. intros H. unfold refreshTokens. now rewrite H. Qed.

Lemma lookup_started (token base : string) (w : World) :
  promises (exchange_started token base w) !! length (promises w) =
  Some (Pending (sent w) (now w) token).
Proof. cbn. apply list_lookup_middle. reflexivity. Qed.

Lemma settle_pending (p k : nat) (issued : Z) (token : string) (w : World) :
  promises w !! p = Some (Pending k issued token) ->
  settle p w =
    let o := network w k in
    let w1 := set_now (Z.max (now w) (issued + elapsed DEFAULT_TIMEOUT o)) w in
    let r := renewal_resume token (fetchWithTimeout_result DEFAULT_TIMEOUT o) w1 in
    set_promises (<[p := Settled (fst r)]> (promises (snd r))) (snd r).
Proof.
  intros Hp. unfold settle. rewrite Hp. cbv zeta.
  now destruct (renewal_resume _ _ _).
Qed.

Lemma promises_handleAuthError (reason : string) (w : World) :
  promises (handleAuthError reason w) = promises w.
Proof.
  unfold handleAuthError, clearTokens. destruct (pathname w); [|reflexivity].
  destruct (public_path s); cbn; now destruct (has_window _).
Qed.

Lemma promises_renewal_resume (token : string) (r : NetResult) (w : World) :
  promises (snd (renewal_resume token r w)) = promises w.
Proof.
  unfold renewal_resume, refresh_catch.
  destruct r as [res|e]; [destruct (ok res); [destruct (json res)|]|]; cbn;
    rewrite ?promises_handleAuthError; try reflexivity.
  unfold setTokens. now destruct (has_window w).
Qed.

(** Whatever the exchange gives, the handle is null once it has settled. *)
Lemma refreshPromise_renewal_resume (token : string) (r : NetResult) (w : World) :
  refreshPromise (snd (renewal_resume token r w)) = None.
Proof.
  unfold renewal_resume, refresh_catch.
  destruct r as [res|e]; [destruct (ok res); [destruct (json res)|]|];
    reflexivity.
Qed.

Lemma has_window_stored (w : World) (token : string) :
  refreshToken (getTokens w) = Some token -> has_window w = true.
Proof. unfold getTokens. now destruct (has_window w). Qed.

(** C9: an exchange that succeeds (a 2xx answer within the timeout whose
    body carries an access credential) makes the awaited call return that
    credential and stores the whole new pair: the new access credential,
    the new refresh credential or, when the answer has none, the one the
    exchange was started with, and the expiry now + expires_in (900 when
    missing) seconds. *)
Theorem refresh_persists_pair (w : World) (token base access : string)
    (res : Response) (data : RefreshData) :
  refreshPromise w = None ->
  can_refresh token base w ->
  latency (network w (sent w)) < 30000 ->
  result (network w (sent w)) = Responds res ->
  ok res = true ->
  json res = Some data ->
  access_token data = Some access ->
  exists w',
    await_refreshTokens w = (Some access, w') /\
    now w' = Z.max (now w) (now w + latency (network w (sent w))) /\
    localStorage w' =
      <[EXP_KEY := Js.String_of_Z (now w' + default 900 (expires_in data) * 1000)]>
        (<[REFRESH_KEY := default token (refresh_token data)]>
           (<[ACCESS_KEY := access]> (localStorage w))) /\
    (refresh_token data = None -> localStorage w' !! REFRESH_KEY = localStorage w !! REFRESH_KEY) /\
    refreshPromise w' = None.
Proof.
  intros Hnull Hcan Hfast Hres Hok Hjson Haccess.
  pose proof Hcan as (Hstored & _ & _ & _).
  pose proof (has_window_stored w token Hstored) as Hwin.
  unfold await_refreshTokens.
  rewrite (refreshTokens_starts token base w Hnull Hcan).
  set (p := length (promises w)). set (w1 := exchange_started token base w).
  pose proof (lookup_started token base w) as Hp. fold p w1 in Hp.
  assert (Hresult : fetchWithTimeout_result DEFAULT_TIMEOUT (network w1 (sent w)) =
                    Responds res).
  { unfold fetchWithTimeout_result, fetch_under_timer, DEFAULT_TIMEOUT.
    cbn [Z.eqb]. change (network w1) with (network w).
    destruct (Z.ltb_spec (latency (network w (sent w))) 30000); [|lia].
    now rewrite Hres. }
  assert (Helapsed : elapsed DEFAULT_TIMEOUT (network w1 (sent w)) =
                     latency (network w (sent w))).
  { unfold elapsed, DEFAULT_TIMEOUT. cbn [Z.eqb].
    change (network w1) with (network w). lia. }
  unfold await. rewrite Hp, (settle_pending p _ _ _ w1 Hp). cbv zeta.
  rewrite Hresult, Helapsed. unfold renewal_resume. rewrite Hok, Hjson, Haccess.
  cbn [fst snd]. unfold setTokens.
  change (has_window (set_now _ w1)) with (has_window w). rewrite Hwin.
  cbn [promises set_promises set_refreshPromise set_storage].
  rewrite list_lookup_insert_eq by (apply lookup_lt_Some in Hp; exact Hp).
  eexists. split; [reflexivity|]. cbn.
  split; [reflexivity|]. split; [reflexivity|]. split; [|reflexivity].
  intros ->. cbn. rewrite lookup_insert_ne by discriminate.
  rewrite lookup_insert_eq.
  unfold getTokens in Hstored. rewrite Hwin in Hstored. cbn in Hstored.
  now rewrite Hstored.
Qed.

(* ------------------------------------------------------------------ *)
(** ** The coordinator: many callers, one exchange *)

Lemma refresh_calls_app (l1 l2 : list Event) :
  refresh_calls (l1 ++ l2)%list = (refresh_calls l1 + refresh_calls l2)%nat.
Proof. unfold refresh_calls. now rewrite List.filter_app, length_app. Qed.

Lemma refresh_calls_calm (w w' : World) :
  calm w w' -> refresh_calls (log w') = refresh_calls (log w).
Proof.
  intros (d & -> & Hd). rewrite refresh_calls_app.
  assert (Hzero : refresh_calls d = 0%nat).
  { induction Hd as [|e d He _ IH]; [reflexivity|].
    destruct e; cbn in *; [assumption..|contradiction]. }
  lia.
Qed.

Lemma run_app (l1 l2 : list Action) (w : World) :
  run (l1 ++ l2)%list w =
    ((fst (run l1 w) ++ fst (run l2 (snd (run l1 w))))%list,
     snd (run l2 (snd (run l1 w)))).
Proof.
  revert w. induction l1 as [|a l1 IH]; intros w.
  - cbn. now destruct (run l2 w).
  - destruct a as [|q]; cbn.
    + destruct (refreshTokens w) as [p w1]. rewrite IH.
      now destruct (run l1 w1).
    + apply IH.
Qed.

(** While the handle is set every caller is handed the same promise and
    the world does not move. *)
Lemma run_attached (n p : nat) (w : World) :
  refreshPromise w = Some p -> run (repeat Invoke n) w = (repeat p n, w).
Proof.
  intros Hset. induction n as [|n IH]; [reflexivity|].
  cbn. now rewrite (refreshTokens_attaches p w Hset), IH.
Qed.

Lemma run_callers (n : nat) (token base : string) (w : World) :
  refreshPromise w = None -> can_refresh token base w ->
  run (repeat Invoke (S n)) w =
    (repeat (length (promises w)) (S n), exchange_started token base w).
Proof.
  intros Hnull Hcan. cbn.
  rewrite (refreshTokens_starts token base w Hnull Hcan).
  now rewrite (run_attached n (length (promises w))).
Qed.

(** X19: when N callers invoke the coordinator while the handle is null
    and the stored refresh credential can be exchanged, the first one
    starts the exchange and all N are handed the same promise; the
    refresh endpoint has been called once while the exchange is in
    flight, and still once after it has settled, when that promise holds
    the one result for every caller. *)
Theorem single_flight (N : nat) (token base : string) (w : World) :
  (1 <= N)%nat ->
  refreshPromise w = None ->
  can_refresh token base w ->
  let p := length (promises w) in
  let flight := run (repeat Invoke N) w in
  let settled := run (repeat Invoke N ++ [Deliver p])%list w in
  fst flight = repeat p N /\
  promises (snd flight) !! p = Some (Pending (sent w) (now w) token) /\
  refresh_calls (log (snd flight)) = S (refresh_calls (log w)) /\
  fst settled = repeat p N /\
  refresh_calls (log (snd settled)) = S (refresh_calls (log w)) /\
  (exists v, promises (snd settled) !! p = Some (Settled v)) /\
  refreshPromise (snd settled) = None.
Proof.
  intros HN Hnull Hcan p flight settled.
  destruct N as [|n]; [lia|].
  assert (Hflight : flight = (repeat p (S n), exchange_started token base w))
    by apply (run_callers n token base w Hnull Hcan).
  assert (Hsettled : settled =
            (repeat p (S n), settle p (exchange_started token base w))).
  { unfold settled. rewrite run_app. fold flight. rewrite Hflight.
    cbn [fst snd run]. now rewrite app_nil_r. }
  assert (Hcalls : refresh_calls (log (exchange_started token base w)) =
                   S (refresh_calls (log w))).
  { unfold exchange_started.
    cbn [log set_refreshPromise set_promises set_sent emit].
    rewrite refresh_calls_app.
    change (refresh_calls [EvFetch ByRefresh ?u ?i ?t]) with 1%nat. lia. }
  pose proof (lookup_started token base w) as Hp. fold p in Hp.
  rewrite Hflight, Hsettled. cbn [fst snd].
  split; [reflexivity|]. split; [exact Hp|]. split; [exact Hcalls|].
  split; [reflexivity|]. split; [|split].
  - rewrite (refresh_calls_calm _ _ (settle_calm p _)). exact Hcalls.
  - rewrite (settle_pending p _ _ _ _ Hp). cbv zeta.
    cbn [promises set_promises]. eexists.
    apply list_lookup_insert_eq. rewrite promises_renewal_resume.
    apply lookup_lt_Some in Hp. exact Hp.
  - rewrite (settle_pending p _ _ _ _ Hp). cbv zeta.
    apply refreshPromise_renewal_resume.
Qed.

Lemma promises_refresh_catch (reason : string) (w : World) :
  promises (refresh_catch reason w) = promises w.
Proof. unfold refresh_catch. cbn. now rewrite promises_handleAuthError. Qed.

Lemma promises_renewal_start (w : World) :
  promises (snd (renewal_start w)) = promises w.
Proof.
  unfold renewal_start.
  destruct (refreshToken (getTokens w)) as [token|];
    [|apply promises_handleAuthError].
  destruct (String.eqb token ""); [apply promises_handleAuthError|].
  destruct (negb (isRefreshTokenValid w)); [apply promises_handleAuthError|].
  destruct (apiBase w); [reflexivity | apply promises_refresh_catch].
Qed.

Lemma refreshTokens_one_in_flight (w : World) :
  one_in_flight w -> one_in_flight (snd (refreshTokens w)).
Proof.
  intros Hinv. unfold refreshTokens.
  destruct (refreshPromise w) as [q|] eqn:Hhandle; [exact Hinv|].
  pose proof (promises_renewal_start w) as Hsame.
  destruct (renewal_start w) as [pr w1]. cbn [snd] in Hsame.
  intros p k issued token. cbn. rewrite Hsame. intros Hp.
  destruct (Nat.lt_ge_cases p (length (promises w))) as [Hlt|Hge].
  - rewrite lookup_app_l in Hp by exact Hlt.
    apply Hinv in Hp. congruence.
  - f_equal. apply lookup_lt_Some in Hp. rewrite length_app in Hp.
    cbn in Hp. lia.
Qed.

Lemma settle_one_in_flight (q : nat) (w : World) :
  one_in_flight w -> one_in_flight (settle q w).
Proof.
  intros Hinv.
  destruct (promises w !! q) as [[k issued token|v]|] eqn:Hq;
    try (unfold settle; now rewrite Hq).
  rewrite (settle_pending q k issued token w Hq). cbv zeta.
  intros p k' issued' token'. cbn [promises set_promises].
  rewrite promises_renewal_resume. cbn [promises set_now]. intros Hp.
  destruct (decide (p = q)) as [->|Hne].
  - rewrite list_lookup_insert_eq in Hp by (now apply lookup_lt_Some in Hq).
    discriminate Hp.
  - rewrite list_lookup_insert_ne in Hp by congruence.
    apply Hinv in Hp. apply Hinv in Hq. congruence.
Qed.

(** At most one exchange is in flight, whatever the schedule. *)
Lemma run_one_in_flight (acts : list Action) :
  forall w, one_in_flight w -> one_in_flight (snd (run acts w)).
Proof.
  induction acts as [|a acts IH]; intros w Hinv; [exact Hinv|].
  destruct a as [|q]; cbn.
  - pose proof (refreshTokens_one_in_flight w Hinv) as H1.
    destruct (refreshTokens w) as [p w1]. cbn [snd] in H1.
    specialize (IH w1 H1). now destruct (run acts w1).
  - apply IH, settle_one_in_flight, Hinv.
Qed.

Lemma one_in_flight_unique (w : World) (p q k k' : nat) (i i' : Z)
    (t t' : string) :
  one_in_flight w ->
  promises w !! p = Some (Pending k i t) ->
  promises w !! q = Some (Pending k' i' t') ->
  p = q.
Proof. intros Hinv Hp Hq. apply Hinv in Hp, Hq. congruence. Qed.

(* ------------------------------------------------------------------ *)
(** ** The coordinator: the handle after a renewal *)

(** A renewal that waited for its request leaves the handle null. *)
Lemma settle_clears_handle (p k : nat) (issued : Z) (token : string) (w : World) :
  promises w !! p = Some (Pending k issued token) ->
  refreshPromise (settle p w) = None.
Proof.
  intros Hp. rewrite (settle_pending p k issued token w Hp). cbv zeta.
  apply refreshPromise_renewal_resume.
Qed.

(** A renewal that returns before its first suspension (no refresh
    credential, one that has expired, no base URL) has settled when
    [refreshTokens] assigns its promise to the handle, and nothing resets
    the handle afterwards. *)
Lemma refreshTokens_early_return (w w1 : World) (v : option string) :
  refreshPromise w = None ->
  renewal_start w = (Settled v, w1) ->
  let p := length (promises w1) in
  exists w', refreshTokens w = (p, w') /\
    refreshPromise w' = Some p /\ promises w' !! p = Some (Settled v).
Proof.
  intros Hnull Hstart p. unfold refreshTokens. rewrite Hnull, Hstart.
  eexists. split; [reflexivity|]. split; [reflexivity|].
  cbn. apply list_lookup_middle. reflexivity.
Qed.

Lemma await_settled (p : nat) (v : option string) (w : World) :
  refreshPromise w = Some p -> promises w !! p = Some (Settled v) ->
  await_refreshTokens w = (v, w).
Proof.
  intros Hset Hp. unfold await_refreshTokens.
  rewrite (refreshTokens_attaches p w Hset). unfold await. now rewrite Hp.
Qed.

(* ------------------------------------------------------------------ *)
(** ** More on the credential store *)

Lemma has_window_setTokens (a r : string) (e : Z) (w : World) :
  has_window (setTokens a r e w) = has_window w.
Proof. unfold setTokens. now destruct (has_window w) eqn:Hw. Qed.

Lemma has_window_clearTokens (w : World) :
  has_window (clearTokens w) = has_window w.
Proof. unfold clearTokens. now destruct (has_window w) eqn:Hw. Qed.

Lemma cleared_twice (m : gmap string string) :
  delete EXP_KEY (delete REFRESH_KEY (delete ACCESS_KEY
    (delete EXP_KEY (delete REFRESH_KEY (delete ACCESS_KEY m))))) =
  delete EXP_KEY (delete REFRESH_KEY (delete ACCESS_KEY m)).
Proof.
  apply map_eq. intros k. rewrite !lookup_delete.
  repeat case_decide; congruence.
Qed.

(** X1: what [setTokens] writes is what [getTokens] reads, whatever was
    stored before: both credentials and, through [String] and
    [parseInt], the expiry instant (if it is not zero). Entries under
    other keys are not touched. *)
Theorem setTokens_getTokens_roundtrip (access refresh : string) (e : Z)
    (w : World) :
  has_window w = true -> e <> 0 ->
  getTokens (setTokens access refresh e w) =
    mkTokens (Some access) (Some refresh) (Some e) /\
  (forall k, k <> ACCESS_KEY -> k <> REFRESH_KEY -> k <> EXP_KEY ->
     localStorage (setTokens access refresh e w) !! k = localStorage w !! k).
Proof.
  intros Hw He. split.
  - rewrite getTokens_setTokens by exact Hw.
    now destruct (Z.eqb_spec e 0).
  - intros k Ha Hr Hx. unfold setTokens. rewrite Hw.
    cbn [localStorage set_storage].
    now rewrite !lookup_insert_ne by congruence.
Qed.

(** X2: [clearTokens] is idempotent, leaves a store that reads as empty,
    and removes nothing but its three keys. *)
Theorem clearTokens_idempotent (w : World) :
  clearTokens (clearTokens w) = clearTokens w /\
  getTokens (clearTokens w) = mkTokens None None None /\
  (forall k, k <> ACCESS_KEY -> k <> REFRESH_KEY -> k <> EXP_KEY ->
     localStorage (clearTokens w) !! k = localStorage w !! k).
Proof.
  split; [|split; [apply getTokens_clearTokens|]].
  - unfold clearTokens at 1. rewrite has_window_clearTokens.
    destruct (has_window w) eqn:Hw; [|reflexivity].
    unfold clearTokens. rewrite Hw. unfold set_storage. cbn. f_equal.
    apply cleared_twice.
  - intros k Ha Hr Hx. unfold clearTokens.
    destruct (has_window w); [|reflexivity]. cbn [localStorage set_storage].
    now rewrite !lookup_delete_ne by congruence.
Qed.

(** X3: [hasTokens] looks at the two credentials only: a stored pair of
    non-empty credentials counts as signed in at every instant, whatever
    its expiry; after [clearTokens] or [handleAuthError] nobody is. *)
Theorem hasTokens_ignores_expiry (access refresh reason : string) (e t : Z)
    (w : World) :
  has_window w = true -> access <> "" -> refresh <> "" ->
  hasTokens (set_now t (setTokens access refresh e w)) = true /\
  hasTokens (clearTokens w) = false /\
  hasTokens (handleAuthError reason w) = false.
Proof.
  intros Hw Ha Hr. unfold hasTokens.
  rewrite getTokens_set_now, getTokens_setTokens, getTokens_clearTokens,
    getTokens_handleAuthError by exact Hw.
  cbn [accessToken refreshToken Js.truthy_str].
  destruct (String.eqb_spec access ""); [contradiction|].
  destruct (String.eqb_spec refresh ""); [contradiction|]. now repeat split.
Qed.

(** X4: in a window [handleAuthError] empties the store and logs the
    failure; it assigns the location "/login" exactly when the current
    path is none of "/login", "/signup" and "/". A second failure finds
    the store as the first one left it. *)
Theorem handleAuthError_effects (reason again path : string) (w : World) :
  pathname w = Some path ->
  let w' := handleAuthError reason w in
  getTokens w' = mkTokens None None None /\
  log w' = (log w ++ EvAuthError reason ::
              (if public_path path then [] else [EvRedirect "/login"]))%list /\
  refreshPromise w' = refreshPromise w /\
  localStorage (handleAuthError again w') = localStorage w'.
Proof.
  intros Hpath w'. split; [apply getTokens_handleAuthError|].
  assert (Hw : has_window w = true) by (unfold has_window; now rewrite Hpath).
  assert (Hstore : localStorage w' =
            delete EXP_KEY (delete REFRESH_KEY (delete ACCESS_KEY (localStorage w)))).
  { unfold w', handleAuthError, clearTokens. rewrite Hpath.
    change (has_window (emit (EvAuthError reason) w)) with (has_window w).
    rewrite Hw. now destruct (public_path path). }
  assert (Hpath' : pathname w' = Some path).
  { unfold w', handleAuthError, clearTokens. rewrite Hpath.
    change (has_window (emit (EvAuthError reason) w)) with (has_window w).
    rewrite Hw. now destruct (public_path path). }
  split; [|split].
  - unfold w', handleAuthError, clearTokens. rewrite Hpath.
    change (has_window (emit (EvAuthError reason) w)) with (has_window w).
    rewrite Hw. destruct (public_path path); cbn; [reflexivity|].
    now rewrite <- app_assoc.
  - unfold w', handleAuthError, clearTokens. rewrite Hpath.
    change (has_window (emit (EvAuthError reason) w)) with (has_window w).
    rewrite Hw. now destruct (public_path path).
  - assert (Hw' : has_window w' = true)
      by (unfold has_window; now rewrite Hpath').
    unfold handleAuthError at 1, clearTokens. rewrite Hpath'.
    change (has_window (emit (EvAuthError again) w')) with (has_window w').
    rewrite Hw'.
    assert (Hgoal : delete EXP_KEY (delete REFRESH_KEY
                      (delete ACCESS_KEY (localStorage w'))) = localStorage w').
    { rewrite Hstore. apply cleared_twice. }
    destruct (public_path path); cbn; exact Hgoal.
Qed.

(** X5: without a window (server rendering) the store functions do
    nothing and read nothing: writes, clears and auth failures leave the
    world as it is, the store reads as empty, the access credential
    counts as expired and the refresh credential as unusable. *)
Theorem no_window_inert (access refresh reason : string) (e : Z) (w : World) :
  pathname w = None ->
  setTokens access refresh e w = w /\
  clearTokens w = w /\
  handleAuthError reason w = w /\
  getTokens w = mkTokens None None None /\
  hasTokens w = false /\
  isAccessExpired w = true /\
  isRefreshTokenValid w = false.
Proof.
  intros Hpath.
  assert (Hw : has_window w = false) by (unfold has_window; now rewrite Hpath).
  unfold setTokens, clearTokens, handleAuthError, hasTokens, isAccessExpired,
    isRefreshTokenValid, getTokens.
  rewrite Hw, Hpath. now repeat split.
Qed.

(* ------------------------------------------------------------------ *)
(** ** More on the executor *)

Lemma headers_get_set_same (name k v : string) (hs : list (string * string)) :
  Js.lowercase k = Js.lowercase name ->
  Js.headers_get name (Js.headers_set k v hs) = Some v.
Proof.
  intros Heq. unfold Js.headers_get, Js.headers_set.
  induction hs as [|h hs IH]; cbn [List.filter app find fst].
  - rewrite Heq, String.eqb_refl. reflexivity.
  - destruct (String.eqb_spec (Js.lowercase (fst h)) (Js.lowercase k)) as [Hk|Hk];
      cbn [negb app find]; [exact IH|].
    destruct (String.eqb_spec (Js.lowercase (fst h)) (Js.lowercase name)) as [Hn|Hn];
      [congruence | exact IH].
Qed.

Lemma auth_headers_get_bearer (init : option RequestInit) (token : string) :
  token <> "" ->
  Js.headers_get "Authorization" (init_headers (auth_init init (Some token))) =
  Some ("Bearer " ++ token).
Proof.
  intros Hne. unfold auth_init, auth_headers, Js.truthy_str. cbn [init_headers].
  destruct (String.eqb_spec token ""); [contradiction|]. cbn [negb default].
  now apply headers_get_set_same.
Qed.

(** X6: the headers of an authorized request. [Accept] is
    "application/json" and [Authorization] is the bearer credential,
    whatever the caller passed under these names in any letter case;
    every other header of the caller goes out as it came. *)
Theorem auth_headers_override (init : option RequestInit) (token name : string) :
  token <> "" ->
  let sent_headers := auth_headers init (Some token) in
  Js.headers_get "Accept" sent_headers = Some "application/json" /\
  Js.headers_get "Authorization" sent_headers = Some ("Bearer " ++ token) /\
  (Js.lowercase name <> "accept" -> Js.lowercase name <> "authorization" ->
   Js.headers_get name sent_headers =
   Js.headers_get name (default [] (init_headers <$> init))).
Proof.
  intros Hne sent_headers. unfold sent_headers, auth_headers, Js.truthy_str.
  destruct (String.eqb_spec token ""); [contradiction|]. cbn [negb default].
  split; [|split].
  - rewrite headers_get_set_other by discriminate.
    now apply headers_get_set_same.
  - now apply headers_get_set_same.
  - intros Ha Hb. rewrite !headers_get_set_other; [reflexivity|..];
      intros Heq; [apply Ha | apply Hb]; now rewrite <- Heq.
Qed.

(** X7: while the stored access credential is more than ten seconds away
    from its expiry, [getValidToken] returns it and nothing else happens:
    no exchange, no request, no change of the world. *)
Theorem getValidToken_fresh (access refresh : string) (e t : Z) (w : World) :
  has_window w = true -> access <> "" -> e <> 0 -> t <= e - 10000 ->
  let w' := set_now t (setTokens access refresh e w) in
  getValidToken w' = (Some access, w').
Proof.
  intros Hw Ha He Ht w'. unfold getValidToken, isAccessExpired.
  unfold w'. rewrite getTokens_set_now, getTokens_setTokens by exact Hw.
  cbn [accessToken accessExpiry now set_now].
  destruct (String.eqb_spec access ""); [contradiction|].
  destruct (Z.eqb_spec e 0); [contradiction|].
  destruct (Z.gtb_spec t (e - 10000)); [lia | reflexivity].
Qed.

(** X8: a relative path without a configured base URL makes the call
    throw the configuration error before anything else: the world is
    untouched, so no credential is read or cleared and nothing is sent.
    A path that starts with "http" is used as the URL as it is. *)
Theorem unconfigured_call_fails (fuel : nat) (pathOrUrl : string)
    (init : option RequestInit) (n : nat) (w : World) :
  Js.startsWith pathOrUrl "http" = false ->
  api_base w = None \/ api_base w = Some "" ->
  fetchWithAuth (S fuel) pathOrUrl init n w = Some (Thrown config_error, w) /\
  (forall absolute, Js.startsWith absolute "http" = true ->
     fullUrl absolute w = Some absolute).
Proof.
  intros Hrel Hbase. split.
  - rewrite fetchWithAuth_step. unfold fullUrl, apiBase. rewrite Hrel.
    now destruct Hbase as [-> | ->].
  - intros absolute Habs. unfold fullUrl. now rewrite Habs.
Qed.

(** X9: the plain case. With a credential resolved and an answer other
    than 401 and 403, the call returns that answer after one request,
    which went to the resolved URL with the bearer credential; the store
    and the handle are as [getValidToken] left them. *)
Theorem fetchWithAuth_returns_response (fuel : nat) (pathOrUrl : string)
    (init : option RequestInit) (n : nat) (w w1 : World) (url token : string)
    (res : Response) :
  fullUrl pathOrUrl w = Some url ->
  getValidToken w = (Some token, w1) ->
  token <> "" ->
  fetchWithTimeout_result (getTimeoutForEndpoint pathOrUrl)
    (network w1 (sent w1)) = Responds res ->
  status res <> 401 -> status res <> 403 ->
  let request := auth_init init (Some token) in
  let w' := after_request n url request (getTimeoutForEndpoint pathOrUrl) w1 in
  fetchWithAuth (S fuel) pathOrUrl init n w = Some (Returned res, w') /\
  log w' = (log w1 ++ [EvFetch (ByExecutor n) url request
                         (getTimeoutForEndpoint pathOrUrl)])%list /\
  Js.headers_get "Authorization" (init_headers request) = Some ("Bearer " ++ token) /\
  init_method request = init ≫= init_method /\
  init_body request = init ≫= init_body /\
  localStorage w' = localStorage w1 /\
  refreshPromise w' = refreshPromise w1.
Proof.
  intros Hurl Htoken Hne Hres H401 H403 request w'.
  rewrite fetchWithAuth_step, Hurl, Htoken. unfold Js.truthy_str.
  destruct (String.eqb_spec token ""); [contradiction|].
  cbn [negb andb]. cbv zeta. rewrite Hres.
  destruct (Z.eqb_spec (status res) 401); [contradiction|].
  destruct (Z.eqb_spec (status res) 403); [contradiction|].
  cbn [andb orb]. split; [reflexivity|]. split; [reflexivity|].
  split; [|now repeat split].
  apply auth_headers_get_bearer. exact Hne.
Qed.

(** X10: only a 401 is retried. A 403 on the first attempt is returned
    to the caller after [handleAuthError], which empties the store; the
    coordinator is not invoked and there is no second request. *)
Theorem fetchWithAuth_403_not_retried (fuel : nat) (pathOrUrl : string)
    (init : option RequestInit) (w w1 : World) (url : string)
    (token : option string) (res : Response) :
  fullUrl pathOrUrl w = Some url ->
  getValidToken w = (token, w1) ->
  Js.truthy_str token = true ->
  fetchWithTimeout_result (getTimeoutForEndpoint pathOrUrl)
    (network w1 (sent w1)) = Responds res ->
  status res = 403 ->
  let w3 := after_request 0 url (auth_init init token)
              (getTimeoutForEndpoint pathOrUrl) w1 in
  let w' := handleAuthError "Auth error: 403" w3 in
  fetchWithAuth (S fuel) pathOrUrl init 0 w = Some (Returned res, w') /\
  getTokens w' = mkTokens None None None /\
  traced [0%nat] w w' /\
  refresh_calls (log w') = refresh_calls (log w1) /\
  sent w' = S (sent w1).
Proof.
  intros Hurl Htoken Htruthy Hres H403 w3 w'.
  rewrite fetchWithAuth_step, Hurl, Htoken, Htruthy. cbn [negb andb]. cbv zeta.
  rewrite Hres, H403. cbn [Z.eqb Pos.eqb andb orb].
  split; [reflexivity|]. split; [apply getTokens_handleAuthError|].
  split; [|split].
  - pose proof (getValidToken_quiet w) as Hq. rewrite Htoken in Hq.
    apply (traced_trans [] [0%nat] w w1); [now apply traced_quiet|].
    apply (traced_trans [0%nat] [] w1 w3); [apply traced_request|].
    apply traced_quiet, handleAuthError_quiet.
  - unfold w'. rewrite (refresh_calls_calm _ _ (handleAuthError_calm _ w3)).
    unfold w3, after_request, fetchWithTimeout.
    cbn [snd log set_now set_sent emit]. rewrite refresh_calls_app.
    change (refresh_calls [EvFetch (ByExecutor 0) ?u ?i ?t]) with 0%nat. lia.
  - unfold w', handleAuthError, clearTokens. destruct (pathname w3); [|reflexivity].
    destruct (public_path s); cbn; now destruct (has_window _).
Qed.

(* ------------------------------------------------------------------ *)
(** ** More on the coordinator *)

Lemma await_refreshTokens_succeeds (w : World) (token base : string)
    (res : Response) (data : RefreshData) :
  refreshPromise w = None ->
  can_refresh token base w ->
  latency (network w (sent w)) < 30000 ->
  result (network w (sent w)) = Responds res ->
  ok res = true ->
  json res = Some data ->
  await_refreshTokens w =
    (access_token data, exchange_succeeded token base data w).
Proof.
  intros Hnull Hcan Hfast Hres Hok Hjson.
  unfold await_refreshTokens.
  rewrite (refreshTokens_starts token base w Hnull Hcan).
  set (p := length (promises w)). set (w1 := exchange_started token base w).
  pose proof (lookup_started token base w) as Hp. fold p w1 in Hp.
  assert (Hresult : fetchWithTimeout_result DEFAULT_TIMEOUT (network w1 (sent w)) =
                    Responds res).
  { unfold fetchWithTimeout_result, fetch_under_timer, DEFAULT_TIMEOUT.
    cbn [Z.eqb]. change (network w1) with (network w).
    destruct (Z.ltb_spec (latency (network w (sent w))) 30000); [|lia].
    now rewrite Hres. }
  assert (Helapsed : elapsed DEFAULT_TIMEOUT (network w1 (sent w)) =
                     latency (network w (sent w))).
  { unfold elapsed, DEFAULT_TIMEOUT. cbn [Z.eqb].
    change (network w1) with (network w). lia. }
  unfold await. rewrite Hp, (settle_pending p _ _ _ w1 Hp). cbv zeta.
  rewrite Hresult, Helapsed. unfold renewal_resume. rewrite Hok, Hjson.
  cbn [fst snd].
  assert (Hlen : (p < length (promises w1))%nat)
    by (apply lookup_lt_Some in Hp; exact Hp).
  unfold exchange_succeeded. fold w1 p. cbv zeta.
  set (w2 := set_refreshPromise None _).
  assert (Hps : promises w2 = promises w1).
  { unfold w2, setTokens. cbn. now destruct (has_window _). }
  cbn [promises set_promises].
  rewrite list_lookup_insert_eq by (rewrite Hps; exact Hlen).
  reflexivity.
Qed.

(** X11: an exchange that fails settles its promise with null, resets the
    handle and empties the store; it is not tried again, so no further
    request goes out. An exchange that takes 30 seconds or more fails in
    this way, with the timeout error. *)
Theorem settle_failure (p k : nat) (issued : Z) (token : string) (w : World) :
  promises w !! p = Some (Pending k issued token) ->
  refresh_fails (fetchWithTimeout_result DEFAULT_TIMEOUT (network w k)) ->
  let w' := settle p w in
  promises w' !! p = Some (Settled None) /\
  refreshPromise w' = None /\
  getTokens w' = mkTokens None None None /\
  sent w' = sent w /\
  calm w w' /\
  (30000 <= latency (network w k) ->
   fetchWithTimeout_result DEFAULT_TIMEOUT (network w k) = Rejects timeout_error).
Proof.
  intros Hp Hfail w'.
  assert (Hlen : (p < length (promises w))%nat) by now apply lookup_lt_Some in Hp.
  split; [|split; [|split; [|split; [|split]]]].
  - unfold w'. rewrite (settle_pending p k issued token w Hp). cbv zeta.
    cbn [promises set_promises].
    rewrite list_lookup_insert_eq by (now rewrite promises_renewal_resume).
    f_equal. f_equal. unfold renewal_resume.
    destruct (fetchWithTimeout_result _ _) as [res|e]; [|reflexivity].
    cbn in Hfail. destruct Hfail as [Hok | Hjson].
    + now rewrite Hok.
    + rewrite Hjson. now destruct (ok res).
  - apply (settle_clears_handle p k issued token w Hp).
  - unfold w'. rewrite (settle_pending p k issued token w Hp). cbv zeta.
    set (w1 := set_now _ w).
    assert (Hcatch : forall reason v,
              getTokens (set_promises v (refresh_catch reason w1)) =
              mkTokens None None None).
    { intros reason v. unfold refresh_catch.
      change (getTokens (handleAuthError reason
                (emit (EvConsoleError "Token refresh error:") w1)) =
              mkTokens None None None).
      apply getTokens_handleAuthError. }
    unfold renewal_resume.
    destruct (fetchWithTimeout_result _ _) as [res|e]; [|apply Hcatch].
    cbn in Hfail. destruct Hfail as [Hok | Hjson].
    + rewrite Hok. apply Hcatch.
    + rewrite Hjson. destruct (ok res); apply Hcatch.
  - unfold w'. rewrite (settle_pending p k issued token w Hp). cbv zeta.
    cbn [sent set_promises].
    assert (Hcatch : forall reason v, sent (refresh_catch reason v) = sent v).
    { intros reason v. unfold refresh_catch, handleAuthError, clearTokens.
      cbn. destruct (pathname v); [|reflexivity].
      destruct (public_path s); cbn; now destruct (has_window _). }
    unfold renewal_resume.
    destruct (fetchWithTimeout_result _ _) as [res|e];
      [|cbn [snd]; now rewrite Hcatch].
    cbn in Hfail. destruct Hfail as [Hok | Hjson].
    + rewrite Hok. cbn [snd]. now rewrite Hcatch.
    + rewrite Hjson. destruct (ok res); cbn [snd]; now rewrite Hcatch.
  - apply settle_calm.
  - intros Hlate. unfold fetchWithTimeout_result, fetch_under_timer, DEFAULT_TIMEOUT.
    cbn [Z.eqb]. now destruct (Z.ltb_spec (latency (network w k)) 30000); [lia|].
Qed.

(** X12: once an exchange has settled the coordinator is ready again:
    the next call that finds an exchangeable refresh credential starts a
    second exchange, with a new promise and a second request to the
    refresh endpoint. *)
Theorem renewal_restarts (token base token' base' : string) (w : World) :
  refreshPromise w = None ->
  can_refresh token base w ->
  let p := length (promises w) in
  let w1 := snd (run [Invoke; Deliver p] w) in
  can_refresh token' base' w1 ->
  fst (refreshTokens w1) = S p /\
  promises (snd (refreshTokens w1)) !! S p =
    Some (Pending (sent w1) (now w1) token') /\
  refresh_calls (log (snd (refreshTokens w1))) = S (S (refresh_calls (log w))).
Proof.
  intros Hnull Hcan p w1 Hcan'.
  assert (Hw1 : w1 = settle p (exchange_started token base w)).
  { unfold w1. cbn [run]. rewrite (refreshTokens_starts token base w Hnull Hcan).
    reflexivity. }
  pose proof (lookup_started token base w) as Hp. fold p in Hp.
  assert (Hnull1 : refreshPromise w1 = None).
  { rewrite Hw1. eapply settle_clears_handle. exact Hp. }
  assert (Hlen : length (promises w1) = S p).
  { rewrite Hw1, (settle_pending p _ _ _ _ Hp). cbv zeta.
    cbn [promises set_promises].
    rewrite length_insert, promises_renewal_resume.
    unfold exchange_started. cbn. rewrite length_app. cbn. unfold p. lia. }
  rewrite (refreshTokens_starts token' base' w1 Hnull1 Hcan'). cbn [fst snd].
  split; [exact Hlen|]. split.
  - rewrite <- Hlen. apply lookup_started.
  - unfold exchange_started at 1.
    cbn [log set_refreshPromise set_promises set_sent emit].
    rewrite refresh_calls_app.
    change (refresh_calls [EvFetch ByRefresh ?u ?i ?t]) with 1%nat.
    rewrite Hw1, (refresh_calls_calm _ _ (settle_calm p _)).
    unfold exchange_started.
    cbn [log set_refreshPromise set_promises set_sent emit].
    rewrite refresh_calls_app.
    change (refresh_calls [EvFetch ByRefresh ?u ?i ?t]) with 1%nat. lia.
Qed.

(** X13: from a state without promises, whatever callers and deliveries
    are scheduled, at most one exchange is in flight at any time, and it
    is the one the handle points to. *)
Theorem at_most_one_exchange (acts : list Action) (w : World) (p q k k' : nat)
    (i i' : Z) (t t' : string) :
  promises w = [] ->
  promises (snd (run acts w)) !! p = Some (Pending k i t) ->
  promises (snd (run acts w)) !! q = Some (Pending k' i' t') ->
  p = q /\ refreshPromise (snd (run acts w)) = Some p.
Proof.
  intros Hempty Hp Hq.
  assert (Hinv : one_in_flight (snd (run acts w))).
  { apply run_one_in_flight. intros p0 k0 i0 t0 H0.
    rewrite Hempty in H0. discriminate H0. }
  split; [exact (one_in_flight_unique _ _ _ _ _ _ _ _ _ Hinv Hp Hq)|].
  exact (Hinv _ _ _ _ Hp).
Qed.

(* ------------------------------------------------------------------ *)
(** ** Renewal seen from the executor *)

Lemma getValidToken_expired (w : World) :
  isAccessExpired w = true -> getValidToken w = await_refreshTokens w.
Proof.
  intros Hexp. unfold getValidToken. rewrite Hexp.
  destruct (accessToken (getTokens w)) as [access|]; [|reflexivity].
  now destruct (String.eqb access "").
Qed.

Lemma getTokens_exchange_succeeded (token base : string) (data : RefreshData)
    (w : World) :
  has_window w = true ->
  let expiry := Z.max (now w) (now w + latency (network w (sent w))) +
                default 900 (expires_in data) * 1000 in
  getTokens (exchange_succeeded token base data w) =
    mkTokens (Some (default "undefined" (access_token data)))
             (Some (default token (refresh_token data)))
             (if expiry =? 0 then None else Some expiry).
Proof.
  intros Hw expiry. unfold exchange_succeeded. cbv zeta.
  set (w1 := set_now _ (exchange_started token base w)).
  transitivity (getTokens (setTokens (default "undefined" (access_token data))
                  (default token (refresh_token data)) expiry w1));
    [reflexivity|].
  now apply getTokens_setTokens.
Qed.

Lemma log_exchange_succeeded (token base : string) (data : RefreshData)
    (w : World) :
  log (exchange_succeeded token base data w) =
    (log w ++ [EvFetch ByRefresh (base ++ "/api/auth/refresh")
                 (refresh_init token) DEFAULT_TIMEOUT])%list.
Proof.
  unfold exchange_succeeded. cbv zeta. cbn [log set_promises set_refreshPromise].
  rewrite log_setTokens. reflexivity.
Qed.

Lemma frame_exchange_succeeded (token base : string) (data : RefreshData)
    (w : World) :
  let w' := exchange_succeeded token base data w in
  network w' = network w /\ sent w' = S (sent w) /\ api_base w' = api_base w /\
  now w' = Z.max (now w) (now w + latency (network w (sent w))).
Proof.
  unfold exchange_succeeded, setTokens. cbv zeta.
  cbn. destruct (has_window _); now repeat split.
Qed.

Lemma getTokens_after_request (n : nat) (url : string) (init : RequestInit)
    (timeout : Z) (w : World) :
  getTokens (after_request n url init timeout w) = getTokens w.
Proof. reflexivity. Qed.

(** X14: a call that finds the access credential expired renews it
    first and then goes out once, with the new credential; the caller
    gets the backend's answer and sees neither the exchange nor a
    retry. The log gains the refresh request followed by the one
    request of the call. *)
Theorem fetchWithAuth_renews_first (fuel : nat) (pathOrUrl : string)
    (init : option RequestInit) (w : World) (url token base access : string)
    (res1 res : Response) (data : RefreshData) :
  fullUrl pathOrUrl w = Some url ->
  refreshPromise w = None ->
  isAccessExpired w = true ->
  can_refresh token base w ->
  latency (network w (sent w)) < 30000 ->
  result (network w (sent w)) = Responds res1 ->
  ok res1 = true ->
  json res1 = Some data ->
  access_token data = Some access ->
  access <> "" ->
  fetchWithTimeout_result (getTimeoutForEndpoint pathOrUrl)
    (network w (S (sent w))) = Responds res ->
  status res <> 401 -> status res <> 403 ->
  let timeout := getTimeoutForEndpoint pathOrUrl in
  let request := auth_init init (Some access) in
  let w' := after_request 0 url request timeout
              (exchange_succeeded token base data w) in
  fetchWithAuth (S fuel) pathOrUrl init 0 w = Some (Returned res, w') /\
  Js.headers_get "Authorization" (init_headers request) = Some ("Bearer " ++ access) /\
  log w' =
    (log w ++ [EvFetch ByRefresh (base ++ "/api/auth/refresh")
                 (refresh_init token) DEFAULT_TIMEOUT;
               EvFetch (ByExecutor 0) url request timeout])%list /\
  accessToken (getTokens w') = Some access /\
  refreshToken (getTokens w') = Some (default token (refresh_token data)).
Proof.
  intros Hurl Hnull Hexp Hcan Hfast Hres1 Hok Hjson Haccess Hne Hres H401 H403
    timeout request w'.
  pose proof Hcan as (Hstored & _ & _ & _).
  pose proof (has_window_stored w token Hstored) as Hwin.
  pose proof (frame_exchange_succeeded token base data w) as (Hnet & Hsent & _ & _).
  assert (Hheaders : Js.headers_get "Authorization" (init_headers request) =
                     Some ("Bearer " ++ access)).
  { pose proof (auth_headers_get_bearer init access Hne) as H. exact H. }
  split; [|split; [exact Hheaders|split; [|split]]].
  - rewrite fetchWithAuth_step, Hurl, (getValidToken_expired w Hexp).
    rewrite (await_refreshTokens_succeeds w token base res1 data
               Hnull Hcan Hfast Hres1 Hok Hjson), Haccess.
    unfold Js.truthy_str. destruct (String.eqb_spec access ""); [contradiction|].
    cbn [negb andb]. cbv zeta. rewrite Hnet, Hsent. rewrite Hres.
    destruct (Z.eqb_spec (status res) 401); [contradiction|].
    destruct (Z.eqb_spec (status res) 403); [contradiction|]. reflexivity.
  - unfold w', after_request, fetchWithTimeout.
    cbn [snd log set_now set_sent emit].
    rewrite log_exchange_succeeded, <- app_assoc. reflexivity.
  - unfold w'. rewrite getTokens_after_request.
    rewrite getTokens_exchange_succeeded by exact Hwin.
    cbn [accessToken]. now rewrite Haccess.
  - unfold w'. rewrite getTokens_after_request.
    now rewrite getTokens_exchange_succeeded by exact Hwin.
Qed.

Lemma getValidToken_stored (w : World) (access : string) :
  accessToken (getTokens w) = Some access -> access <> "" ->
  isAccessExpired w = false ->
  getValidToken w = (Some access, w).
Proof.
  intros Hstored Hne Hfresh. unfold getValidToken. rewrite Hstored, Hfresh.
  now destruct (String.eqb_spec access "").
Qed.

(** X15: the retry that the caller does not see. The stored access
    credential is not expired locally, but the backend answers 401; the
    exchange then succeeds with a credential valid for ten seconds or
    more, the call is sent once more with that credential, and the
    caller gets the second answer. The log holds the first request, the
    refresh request and the resend, and no auth failure. *)
Theorem fetchWithAuth_retry_succeeds (fuel : nat) (pathOrUrl : string)
    (init : option RequestInit) (w : World)
    (url stale token base access : string)
    (res0 res1 res : Response) (data : RefreshData) :
  let timeout := getTimeoutForEndpoint pathOrUrl in
  let request0 := auth_init init (Some stale) in
  let w3 := after_request 0 url request0 timeout w in
  let w4 := exchange_succeeded token base data w3 in
  let request1 := auth_init init (Some access) in
  let w' := after_request 1 url request1 timeout w4 in
  fullUrl pathOrUrl w = Some url ->
  accessToken (getTokens w) = Some stale -> stale <> "" ->
  isAccessExpired w = false ->
  0 <= now w3 ->
  fetchWithTimeout_result timeout (network w (sent w)) = Responds res0 ->
  status res0 = 401 ->
  refreshPromise w = None ->
  can_refresh token base w3 ->
  latency (network w (S (sent w))) < 30000 ->
  result (network w (S (sent w))) = Responds res1 ->
  ok res1 = true ->
  json res1 = Some data ->
  access_token data = Some access -> access <> "" ->
  10 <= default 900 (expires_in data) ->
  fetchWithTimeout_result timeout (network w (S (S (sent w)))) = Responds res ->
  status res <> 401 -> status res <> 403 ->
  fetchWithAuth (S (S fuel)) pathOrUrl init 0 w = Some (Returned res, w') /\
  log w' =
    (log w ++ [EvFetch (ByExecutor 0) url request0 timeout;
               EvFetch ByRefresh (base ++ "/api/auth/refresh")
                 (refresh_init token) DEFAULT_TIMEOUT;
               EvFetch (ByExecutor 1) url request1 timeout])%list /\
  Js.headers_get "Authorization" (init_headers request1) =
    Some ("Bearer " ++ access) /\
  accessToken (getTokens w') = Some access.
Proof.
  intros timeout request0 w3 w4 request1 w' Hurl Hstored Hstale Hfresh Hclock
    Hres0 H401 Hnull Hcan Hfast Hres1 Hok Hjson Haccess Hne Hlong Hres
    Hn401 Hn403.
  pose proof Hcan as (Hstored3 & _ & _ & _).
  pose proof (has_window_stored w3 token Hstored3) as Hwin.
  pose proof (frame_exchange_succeeded token base data w3)
    as (Hnet & Hsent & Hapi & Hnow).
  fold w4 in Hnet, Hsent, Hapi, Hnow.
  pose proof (getTokens_exchange_succeeded token base data w3 Hwin) as Htok.
  cbv zeta in Htok. fold w4 in Htok. rewrite Haccess in Htok.
  cbn [default] in Htok.
  set (expiry := Z.max (now w3) (now w3 + latency (network w3 (sent w3))) +
                 default 900 (expires_in data) * 1000) in *.
  assert (Hexp : expiry <> 0 /\ now w4 <= expiry - 10000).
  { rewrite Hnow. unfold expiry. lia. }
  destruct Hexp as [Hexp0 Hexp1].
  destruct (Z.eqb_spec expiry 0) as [|_]; [contradiction|].
  assert (Hvalid4 : getValidToken w4 = (Some access, w4)).
  { apply getValidToken_stored; [now rewrite Htok | exact Hne |].
    unfold isAccessExpired. rewrite Htok. cbn [accessExpiry].
    destruct (Z.gtb_spec (now w4) (expiry - 10000)); [lia | reflexivity]. }
  assert (Hurl4 : fullUrl pathOrUrl w4 = Some url).
  { rewrite <- Hurl. unfold fullUrl, apiBase. now rewrite Hapi. }
  subst timeout request0 w3 w4 request1 w'.
  split; [|split; [|split]].
  - rewrite fetchWithAuth_step, Hurl, (getValidToken_stored w stale Hstored Hstale Hfresh).
    unfold Js.truthy_str at 1. destruct (String.eqb_spec stale ""); [contradiction|].
    cbn [negb andb]. cbv zeta. rewrite Hres0, H401.
    cbn [Z.eqb Pos.eqb andb Nat.eqb].
    rewrite (await_refreshTokens_succeeds
               (after_request 0 url (auth_init init (Some stale))
                  (getTimeoutForEndpoint pathOrUrl) w)
               token base res1 data Hnull Hcan Hfast Hres1 Hok Hjson), Haccess.
    unfold Js.truthy_str at 1.
    destruct (String.eqb_spec access ""); [contradiction|]. cbn [negb].
    rewrite fetchWithAuth_step, Hurl4, Hvalid4.
    unfold Js.truthy_str. destruct (String.eqb_spec access ""); [contradiction|].
    cbn [negb andb]. cbv zeta. rewrite Hnet, Hsent.
    change (sent (after_request 0 url ?i ?t w)) with (S (sent w)).
    change (network (after_request 0 url ?i ?t w)) with (network w).
    rewrite Hres.
    destruct (Z.eqb_spec (status res) 401); [contradiction|].
    destruct (Z.eqb_spec (status res) 403); [contradiction|]. reflexivity.
  - unfold after_request at 1. unfold fetchWithTimeout.
    cbn [snd log set_now set_sent emit].
    rewrite log_exchange_succeeded. unfold after_request, fetchWithTimeout.
    cbn [snd log set_now set_sent emit]. now rewrite <- !app_assoc.
  - apply auth_headers_get_bearer. exact Hne.
  - rewrite getTokens_after_request, Htok. reflexivity.
Qed.

(* ------------------------------------------------------------------ *)
(** ** The session state *)

Lemma hasTokens_storage (w w' : World) :
  has_window w = has_window w' -> localStorage w = localStorage w' ->
  hasTokens w = hasTokens w'.
Proof.
  intros Hw Hs. unfold hasTokens, getTokens. now rewrite Hw, Hs.
Qed.

(** X16: [logout] leaves the flag and the store in agreement: the store
    reads as empty, the flag is false, "/login" is the last path pushed,
    and neither a later [checkAuth] nor any storage event changes the
    state again while the store stays as it is. *)
Theorem logout_converges (w : World) (c : AuthContext) (key : option string) :
  let w' := fst (logout w c) in
  let c' := snd (logout w c) in
  getTokens w' = mkTokens None None None /\
  isAuthenticated c' = false /\
  pushed c' = (pushed c ++ ["/login"])%list /\
  checkAuth w' c' = (false, c') /\
  handleStorageChange key w' c' = c'.
Proof.
  cbv zeta. cbn [logout fst snd].
  assert (Hno : hasTokens (clearTokens w) = false).
  { unfold hasTokens. now rewrite getTokens_clearTokens. }
  split; [apply getTokens_clearTokens|]. split; [reflexivity|].
  split; [reflexivity|].
  assert (Hcheck : checkAuth (clearTokens w)
            (mkAuth false (isLoading c) (pushed c ++ ["/login"])) =
          (false, mkAuth false (isLoading c) (pushed c ++ ["/login"]))).
  { unfold checkAuth. now rewrite Hno. }
  split; [exact Hcheck|].
  unfold handleStorageChange. destruct key as [k|]; [|reflexivity].
  destruct (String.eqb k "access_token" || String.eqb k "refresh_token");
    [now rewrite Hcheck | reflexivity].
Qed.

Lemma fold_handleStorageChange_false (keys : list (option string)) (w : World) :
  hasTokens w = false ->
  forall c, isAuthenticated c = false ->
    isAuthenticated (fold_left (fun c k => handleStorageChange k w c) keys c) = false.
Proof.
  intros Hno. induction keys as [|key keys IH]; intros c Hc; [exact Hc|].
  cbn [fold_left]. apply IH. unfold handleStorageChange, checkAuth.
  destruct key as [k|]; [|exact Hc].
  destruct (String.eqb k "access_token" || String.eqb k "refresh_token");
    [cbn; exact Hno | exact Hc].
Qed.

(** X17: tabs converge on a sign-out. When another tab, holding both
    credentials, clears the store, this tab receives the storage events
    of that change and ends with the flag false, whatever it was. An
    event for the expiry key alone, or without a key, changes nothing. *)
Theorem storage_events_sign_out (other w : World) (c : AuthContext) :
  has_window other = true -> has_window w = true ->
  hasTokens other = true ->
  localStorage w = localStorage (clearTokens other) ->
  isAuthenticated
    (fold_left (fun c k => handleStorageChange k w c)
       (storage_events (localStorage other) (localStorage w)) c) = false /\
  handleStorageChange (Some EXP_KEY) w c = c /\
  handleStorageChange None w c = c.
Proof.
  intros Hother Hw Hhas Hshared. split; [|now split].
  assert (Hno : hasTokens w = false).
  { rewrite (hasTokens_storage w (clearTokens other)).
    - unfold hasTokens. now rewrite getTokens_clearTokens.
    - now rewrite has_window_clearTokens, Hw, Hother.
    - exact Hshared. }
  unfold hasTokens, getTokens in Hhas. rewrite Hother in Hhas.
  cbn [accessToken refreshToken] in Hhas.
  apply andb_prop in Hhas as [Ha _].
  destruct (localStorage other !! ACCESS_KEY) as [a|] eqn:Haccess;
    [|discriminate Ha].
  assert (Hgone : localStorage w !! ACCESS_KEY = None).
  { rewrite Hshared. unfold clearTokens. rewrite Hother.
    cbn [localStorage set_storage].
    rewrite !lookup_delete_ne by discriminate. apply lookup_delete_eq. }
  unfold storage_events. cbn [List.filter]. rewrite Haccess, Hgone.
  rewrite bool_decide_eq_false_2 by discriminate. cbn [negb map fold_left].
  apply fold_handleStorageChange_false; [exact Hno|].
  unfold handleStorageChange, checkAuth. cbn. exact Hno.
Qed.

Lemma fetchWithAuth_total (fuel : nat) (pathOrUrl : string)
    (init : option RequestInit) (n : nat) (w : World) :
  exists r, fetchWithAuth (S (S fuel)) pathOrUrl init n w = Some r.
Proof.
  rewrite fetchWithAuth_step.
  destruct (fullUrl pathOrUrl w); [|now eexists].
  destruct (getValidToken w) as [token w1].
  destruct (negb (Js.truthy_str token) && (n =? 0)%nat); [now eexists|].
  cbv zeta. destruct (fetchWithTimeout_result _ _) as [res|err]; [|now eexists].
  destruct ((status res =? 401) && (n =? 0)%nat).
  - destruct (await_refreshTokens _) as [newToken w4].
    destruct (negb (Js.truthy_str newToken)); [now eexists|].
    destruct (fetchWithAuth_resend fuel pathOrUrl init n w4) as (out & w' & Hrun & _).
    rewrite Hrun. now eexists.
  - destruct ((status res =? 401) || (status res =? 403)); now eexists.
Qed.

(** X18: signing out from the chat page always signs out. Whatever the
    logout request does (an answer, a failure, a timeout, no credential
    to send), [handleLogout] ends with the store empty, the flag false
    and "/login" pushed. *)
Theorem handleLogout_always_signs_out (fuel : nat) (w : World) (c : AuthContext) :
  (2 <= fuel)%nat ->
  exists w' c',
    handleLogout fuel w c = Some (w', c') /\
    getTokens w' = mkTokens None None None /\
    isAuthenticated c' = false /\
    pushed c' = (pushed c ++ ["/login"])%list.
Proof.
  intros Hfuel. destruct fuel as [|[|fuel]]; [lia..|].
  unfold handleLogout.
  destruct (fetchWithAuth_total fuel "/api/auth/logout"
              (Some (mkInit (Some "POST") [] None None None)) 0 w)
    as [[out w1] Hrun].
  rewrite Hrun. destruct out as [res|err]; eexists _, _;
    (split; [reflexivity|]); cbn [logout fst snd];
    (split; [apply getTokens_clearTokens | now split]).
Qed.

End Browser.

(* ------------------------------------------------------------------ *)
(** ** Closed instances *)

Abbreviation browser_isRefreshTokenValid :=
  (isRefreshTokenValid Ref.atob Ref.JSON_parse Ref.StringToNumber).

Lemma isRefreshTokenValid_margin_witness :
  (forall exp, exp_claim Ref.atob Ref.JSON_parse Ex.R2000 = Some exp ->
     browser_isRefreshTokenValid (Ex.holding "A1" Ex.R2000 900000 1000 "/chat" Ex.offline) =
       (1000 <? exp * 1000 - 5000)) /\
  (decode_throws Ref.atob Ref.JSON_parse Ex.R2000 ->
     browser_isRefreshTokenValid (Ex.holding "A1" Ex.R2000 900000 1000 "/chat" Ex.offline) = true).
Proof.
  apply (isRefreshTokenValid_margin Ref.atob Ref.JSON_parse Ref.StringToNumber
           (Ex.holding "A1" Ex.R2000 900000 1000 "/chat" Ex.offline) Ex.R2000).
  - vm_compute. reflexivity.
  - discriminate.
Defined.

(** C6 as stated fails for a credential that decodes to a payload without
    an expiry claim: the code multiplies undefined by 1000, compares with
    NaN and answers false. *)
Lemma isRefreshTokenValid_no_claim_counterexample :
  ~ (forall w token, refreshToken (getTokens w) = Some token -> token <> "" ->
       browser_isRefreshTokenValid w =
       isRefreshStillUsable_spec Ref.atob Ref.JSON_parse (now w) token).
Proof.
  intros Hclaim.
  specialize (Hclaim Ex.no_exp_claim "h.e30.s").
  assert (Hstored : refreshToken (getTokens Ex.no_exp_claim) = Some "h.e30.s")
    by (vm_compute; reflexivity).
  specialize (Hclaim Hstored ltac:(discriminate)).
  vm_compute in Hclaim. discriminate Hclaim.
Qed.

Lemma isAccessExpired_strict_margin_witness :
  isAccessExpired (set_now 15000 (setTokens "A1" "R1" 20000 (Ex.blank "/chat" Ex.offline 0))) = true /\
  isAccessExpired (set_now 15000 (clearTokens (Ex.blank "/chat" Ex.offline 0))) = true.
Proof.
  exact (isAccessExpired_strict_margin "A1" "R1" 20000 15000
           (Ex.blank "/chat" Ex.offline 0) eq_refl).
Defined.

(** C5 as stated fails at the margin itself: with the expiry 20000
    recorded and the clock at 10000, now = expiry - 10s, and the answer is
    false. *)
Lemma isAccessExpired_at_margin_counterexample :
  ~ (forall w e, accessExpiry (getTokens w) = Some e ->
       (isAccessExpired w = true <-> now w >= e - 10000)).
Proof.
  intros Hclaim.
  assert (Hread : accessExpiry (getTokens Ex.at_margin) = Some 20000)
    by (vm_compute; reflexivity).
  destruct (Hclaim Ex.at_margin 20000 Hread) as [_ Hback].
  assert (Hnow : now Ex.at_margin >= 20000 - 10000) by (vm_compute; discriminate).
  specialize (Hback Hnow). vm_compute in Hback. discriminate Hback.
Qed.

Abbreviation browser_fetchWithAuth :=
  (fetchWithAuth Ref.atob Ref.JSON_parse Ref.StringToNumber).
Abbreviation browser_getValidToken :=
  (getValidToken Ref.atob Ref.JSON_parse Ref.StringToNumber).
Abbreviation browser_await_refreshTokens :=
  (await_refreshTokens Ref.atob Ref.JSON_parse Ref.StringToNumber).

Lemma fetchWithAuth_at_most_two_attempts_witness :
  (exists out w',
     browser_fetchWithAuth 2 "/api/sessions" None 0 Ex.rejected_session = Some (out, w') /\
     (traced [] Ex.rejected_session w' \/ traced [0%nat] Ex.rejected_session w' \/
      traced [0%nat; 1%nat] Ex.rejected_session w')) /\
  (forall url token w1 res,
     fullUrl "/api/sessions" Ex.rejected_session = Some url ->
     browser_getValidToken Ex.rejected_session = (token, w1) ->
     fetchWithTimeout_result (getTimeoutForEndpoint "/api/sessions")
       (network w1 (sent w1)) = Responds res ->
     status res = 401 \/ status res = 403 ->
     let w3 := after_request 1 url (auth_init None token)
                 (getTimeoutForEndpoint "/api/sessions") w1 in
     browser_fetchWithAuth 2 "/api/sessions" None 1 Ex.rejected_session =
       Some (Returned res,
             handleAuthError ("Auth error: " ++ status_text (status res)) w3) /\
     traced [1%nat] Ex.rejected_session
       (handleAuthError ("Auth error: " ++ status_text (status res)) w3)).
Proof.
  apply (fetchWithAuth_at_most_two_attempts Ref.atob Ref.JSON_parse
           Ref.StringToNumber 2 "/api/sessions" None Ex.rejected_session).
  lia.
Defined.

Lemma fetchWithAuth_authentication_required_witness :
  let w1 := snd (browser_getValidToken Ex.signed_out) in
  let w' := handleAuthError "No valid token available" w1 in
  browser_fetchWithAuth 1 "/api/sessions" None 0 Ex.signed_out =
    Some (Thrown auth_required, w') /\
  err_message auth_required = "Authentication required" /\
  getTokens w' = mkTokens None None None /\
  traced [] Ex.signed_out w'.
Proof.
  apply (fetchWithAuth_authentication_required Ref.atob Ref.JSON_parse
           Ref.StringToNumber 0 "/api/sessions" None Ex.signed_out
           (snd (browser_getValidToken Ex.signed_out))
           "https://api.example/api/sessions" None).
  - reflexivity.
  - vm_compute. reflexivity.
  - reflexivity.
Defined.

Lemma fetchWithAuth_refresh_failed_witness :
  let w3 := after_request 0 "https://api.example/api/sessions"
              (auth_init None (Some "A1")) 30000 Ex.rejected_session in
  let w' := handleAuthError "Token refresh failed"
              (snd (browser_await_refreshTokens w3)) in
  browser_fetchWithAuth 1 "/api/sessions" None 0 Ex.rejected_session =
    Some (Thrown auth_failed, w') /\
  err_message auth_failed = "Authentication failed" /\
  traced [0%nat] Ex.rejected_session w'.
Proof.
  apply (fetchWithAuth_refresh_failed Ref.atob Ref.JSON_parse
           Ref.StringToNumber 0 "/api/sessions" None Ex.rejected_session
           Ex.rejected_session
           (snd (browser_await_refreshTokens
                   (after_request 0 "https://api.example/api/sessions"
                      (auth_init None (Some "A1")) 30000 Ex.rejected_session)))
           "https://api.example/api/sessions" (Some "A1") None
           (mkResponse 401 None)).
  - reflexivity.
  - vm_compute. reflexivity.
  - reflexivity.
  - reflexivity.
  - reflexivity.
  - vm_compute. reflexivity.
  - reflexivity.
Defined.

(** C4 as stated fails: with a fresh access credential, a backend that
    answers 401 to the request and to the refresh exchange makes the call
    throw; the 401 response is not what the caller gets. *)
Lemma fetchWithAuth_refresh_failed_counterexample :
  ~ (forall fuel pathOrUrl init w w1 w4 url token newToken res,
       fullUrl pathOrUrl w = Some url ->
       browser_getValidToken w = (token, w1) ->
       Js.truthy_str token = true ->
       fetchWithTimeout_result (getTimeoutForEndpoint pathOrUrl)
         (network w1 (sent w1)) = Responds res ->
       status res = 401 ->
       browser_await_refreshTokens
         (after_request 0 url (auth_init init token)
            (getTimeoutForEndpoint pathOrUrl) w1) = (newToken, w4) ->
       Js.truthy_str newToken = false ->
       exists w', browser_fetchWithAuth (S fuel) pathOrUrl init 0 w =
                    Some (Returned res, w')).
Proof.
  intros Hclaim.
  destruct (Hclaim 1%nat "/api/sessions" None Ex.rejected_session
              Ex.rejected_session
              (snd (browser_await_refreshTokens
                      (after_request 0 "https://api.example/api/sessions"
                         (auth_init None (Some "A1")) 30000 Ex.rejected_session)))
              "https://api.example/api/sessions" (Some "A1") None
              (mkResponse 401 None)) as [w' Hrun].
  - reflexivity.
  - vm_compute. reflexivity.
  - reflexivity.
  - reflexivity.
  - reflexivity.
  - vm_compute. reflexivity.
  - reflexivity.
  - assert (Hcode : exists e w'',
        browser_fetchWithAuth 2 "/api/sessions" None 0 Ex.rejected_session =
          Some (Thrown e, w'')) by (vm_compute; eauto).
    destruct Hcode as (e & w'' & Hcode). rewrite Hcode in Hrun.
    discriminate Hrun.
Qed.

Lemma fetchWithAuth_resend_without_token_witness :
  let w1 := snd (browser_getValidToken Ex.signed_out) in
  let request := auth_init None None in
  (exists out w',
     browser_fetchWithAuth 1 "/api/sessions" None 1 Ex.signed_out = Some (out, w') /\
     traced [1%nat] Ex.signed_out w' /\
     (forall e, out = Thrown e ->
        fetchWithTimeout_result 30000 (network w1 (sent w1)) = Rejects e) /\
     (forall res,
        fetchWithTimeout_result 30000 (network w1 (sent w1)) = Responds res ->
        out = Returned res) /\
     exists rest,
       log w' =
         (log w1 ++
          EvFetch (ByExecutor 1) "https://api.example/api/sessions"
            (mkInit None (Js.headers_set "Accept" "application/json" [])
               None (Some "cors") (Some "omit"))
            30000 :: rest)%list /\
       Forall no_fetch rest) /\
  log (after_request 1 "https://api.example/api/sessions" request 30000 w1) =
    (log w1 ++ [EvFetch (ByExecutor 1) "https://api.example/api/sessions"
                  request 30000])%list /\
  init_headers request = Js.headers_set "Accept" "application/json" [] /\
  Js.headers_get "Authorization" (init_headers request) =
    Js.headers_get "Authorization" [].
Proof.
  apply (fetchWithAuth_resend_without_token Ref.atob Ref.JSON_parse
           Ref.StringToNumber 0 "/api/sessions" None Ex.signed_out
           (snd (browser_getValidToken Ex.signed_out))
           "https://api.example/api/sessions" None).
  - reflexivity.
  - vm_compute. reflexivity.
  - reflexivity.
Defined.


(** The conversational destination waits for a backend that takes a
    minute; another destination gives up on one that takes 35 seconds. *)
Example chat_waits :
  fst <$> browser_fetchWithAuth 1 "/api/chat" None 0 (Ex.slow_session 60000) =
  Some (Returned (mkResponse 200 None)).
Proof. vm_compute. reflexivity. Qed.

Example sessions_times_out :
  fst <$> browser_fetchWithAuth 1 "/api/sessions" None 0 (Ex.slow_session 35000) =
  Some (Thrown timeout_error).
Proof. vm_compute. reflexivity. Qed.

Abbreviation browser_refreshTokens :=
  (refreshTokens Ref.atob Ref.JSON_parse Ref.StringToNumber).
Abbreviation browser_run :=
  (run Ref.atob Ref.JSON_parse Ref.StringToNumber).
Abbreviation browser_can_refresh :=
  (can_refresh Ref.atob Ref.JSON_parse Ref.StringToNumber).

Lemma expired_session_can_refresh :
  browser_can_refresh Ex.R2000 "https://api.example" Ex.expired_session.
Proof.
  repeat split; try discriminate; vm_compute; reflexivity.
Qed.

Lemma single_flight_witness :
  let w := Ex.expired_session in
  let flight := browser_run (repeat Invoke 3) w in
  let settled := browser_run (repeat Invoke 3 ++ [Deliver 0%nat])%list w in
  fst flight = repeat 0%nat 3 /\
  promises (snd flight) !! 0%nat = Some (Pending (sent w) (now w) Ex.R2000) /\
  refresh_calls (log (snd flight)) = S (refresh_calls (log w)) /\
  fst settled = repeat 0%nat 3 /\
  refresh_calls (log (snd settled)) = S (refresh_calls (log w)) /\
  (exists v, promises (snd settled) !! 0%nat = Some (Settled v)) /\
  refreshPromise (snd settled) = None.
Proof.
  apply (single_flight Ref.atob Ref.JSON_parse Ref.StringToNumber 3
           Ex.R2000 "https://api.example" Ex.expired_session).
  - lia.
  - reflexivity.
  - exact expired_session_can_refresh.
Defined.

Lemma refresh_persists_pair_witness :
  exists w',
    browser_await_refreshTokens Ex.expired_session = (Some "A2", w') /\
    now w' = Z.max 100000 (100000 + 50) /\
    localStorage w' =
      <[EXP_KEY := Js.String_of_Z (now w' + 900 * 1000)]>
        (<[REFRESH_KEY := Ex.R2000]>
           (<[ACCESS_KEY := "A2"]> (localStorage Ex.expired_session))) /\
    (@None string = None ->
       localStorage w' !! REFRESH_KEY = localStorage Ex.expired_session !! REFRESH_KEY) /\
    refreshPromise w' = None.
Proof.
  apply (refresh_persists_pair Ref.atob Ref.JSON_parse Ref.StringToNumber
           Ex.expired_session Ex.R2000 "https://api.example" "A2"
           (mkResponse 200 (Some (mkData (Some "A2") None (Some 900) None)))
           (mkData (Some "A2") None (Some 900) None)).
  - reflexivity.
  - exact expired_session_can_refresh.
  - reflexivity.
  - reflexivity.
  - reflexivity.
  - reflexivity.
  - reflexivity.
Defined.

(** The scenario of the specification: the store holds an expired access
    credential, the call renews it and goes out with the new one. *)
Example end_to_end :
  match browser_fetchWithAuth 2 "/api/sessions" None 0 Ex.expired_session with
  | Some (out, w') =>
      out = Returned (mkResponse 200 (Some (mkData (Some "A2") None (Some 900) None))) /\
      getTokens w' = mkTokens (Some "A2") (Some Ex.R2000) (Some 1000050) /\
      attempts (log w') = [0%nat] /\ refresh_calls (log w') = 1%nat
  | None => False
  end.
Proof. vm_compute. repeat split. Qed.

(** C2 fails on the code: a call of [refreshTokens] with nothing stored
    returns a settled promise and leaves the handle set to it. After a
    later sign-in, with a refresh credential that can be exchanged and an
    expired access credential, callers are still handed that promise:
    they get null and no exchange starts. *)
Theorem refreshTokens_handle_stuck :
  let r := browser_refreshTokens Ex.signed_out in
  let w2 := Ex.sign_in 100000 (snd r) in
  promises (snd r) !! fst r = Some (Settled None) /\
  refreshPromise (snd r) = Some (fst r) /\
  browser_can_refresh Ex.R2000 "https://api.example" w2 /\
  isAccessExpired w2 = true /\
  browser_await_refreshTokens w2 = (None, w2) /\
  browser_run [Invoke; Invoke] w2 = ([fst r; fst r], w2) /\
  refresh_calls (log w2) = 0%nat.
Proof.
  cbv zeta. split; [vm_compute; reflexivity|]. split; [vm_compute; reflexivity|].
  split; [repeat split; try discriminate; vm_compute; reflexivity|].
  repeat split; vm_compute; reflexivity.
Qed.

(** The same with a refresh credential that has expired locally. *)
Example refreshTokens_handle_stuck_expired :
  let r := browser_refreshTokens Ex.stale_session in
  promises (snd r) !! fst r = Some (Settled None) /\
  refreshPromise (snd r) = Some (fst r).
Proof. split; vm_compute; reflexivity. Qed.

(** What a token-less resend puts on the wire, evaluated: the one request
    has the [Accept] header and nothing else. *)
Example resend_without_token_request :
  match browser_fetchWithAuth 1 "/api/sessions" None 1 Ex.signed_out with
  | Some (out, w') =>
      out = Returned (mkResponse 401 None) /\
      log w' =
        [EvAuthError "No refresh token";
         EvFetch (ByExecutor 1) "https://api.example/api/sessions"
           (mkInit None [("Accept", "application/json")] None
              (Some "cors") (Some "omit")) 30000;
         EvAuthError "Auth error: 401"]
  | None => False
  end.
Proof. vm_compute. split; reflexivity. Qed.

(** C1 fails on the code, by the defect of C2. A call of [refreshTokens]
    made while nothing is stored leaves the handle set to a promise
    settled with null. After a sign-in, with the access credential expired
    and a refresh credential that can be exchanged, two callers of the
    coordinator are both handed that promise: the refresh endpoint is
    called zero times, not once, and both callers get null. The same
    holds for a caller that comes through [getValidToken]. *)
Theorem single_flight_lost_after_early_return :
  let r := browser_refreshTokens Ex.signed_out in
  let w := Ex.sign_in 100000 (snd r) in
  let after := browser_run [Invoke; Invoke] w in
  isAccessExpired w = true /\
  browser_can_refresh Ex.R2000 "https://api.example" w /\
  fst after = [fst r; fst r] /\
  promises (snd after) !! fst r = Some (Settled None) /\
  refresh_calls (log (snd after)) = 0%nat /\
  sent (snd after) = 0%nat /\
  browser_getValidToken w = (None, w).
Proof.
  cbv zeta. split; [vm_compute; reflexivity|].
  split; [repeat split; try discriminate; vm_compute; reflexivity|].
  repeat split; vm_compute; reflexivity.
Qed.

(* ------------------------------------------------------------------ *)
(** ** Closed instances of the further properties *)

Lemma setTokens_getTokens_roundtrip_witness :
  getTokens (setTokens "A1" "R1" 20000 (Ex.blank "/chat" Ex.offline 0)) =
    mkTokens (Some "A1") (Some "R1") (Some 20000) /\
  (forall k, k <> ACCESS_KEY -> k <> REFRESH_KEY -> k <> EXP_KEY ->
     localStorage (setTokens "A1" "R1" 20000 (Ex.blank "/chat" Ex.offline 0)) !! k =
     localStorage (Ex.blank "/chat" Ex.offline 0) !! k).
Proof.
  apply (setTokens_getTokens_roundtrip "A1" "R1" 20000
           (Ex.blank "/chat" Ex.offline 0)).
  - reflexivity.
  - discriminate.
Defined.

Lemma hasTokens_ignores_expiry_witness :
  hasTokens (set_now 5000000 (setTokens "A1" "R1" 20000 (Ex.blank "/chat" Ex.offline 0))) = true /\
  hasTokens (clearTokens (Ex.blank "/chat" Ex.offline 0)) = false /\
  hasTokens (handleAuthError "x" (Ex.blank "/chat" Ex.offline 0)) = false.
Proof.
  apply (hasTokens_ignores_expiry "A1" "R1" "x" 20000 5000000
           (Ex.blank "/chat" Ex.offline 0)).
  - reflexivity.
  - discriminate.
  - discriminate.
Defined.

Lemma handleAuthError_effects_witness :
  let w := Ex.rejected_session in
  let w' := handleAuthError "first" w in
  getTokens w' = mkTokens None None None /\
  log w' = (log w ++ EvAuthError "first" ::
              (if public_path "/chat" then [] else [EvRedirect "/login"]))%list /\
  refreshPromise w' = refreshPromise w /\
  localStorage (handleAuthError "second" w') = localStorage w'.
Proof.
  apply (handleAuthError_effects "first" "second" "/chat" Ex.rejected_session).
  reflexivity.
Defined.

Lemma no_window_inert_witness :
  setTokens "A1" "R1" 20000 Ex.server = Ex.server /\
  clearTokens Ex.server = Ex.server /\
  handleAuthError "x" Ex.server = Ex.server /\
  getTokens Ex.server = mkTokens None None None /\
  hasTokens Ex.server = false /\
  isAccessExpired Ex.server = true /\
  browser_isRefreshTokenValid Ex.server = false.
Proof.
  apply (no_window_inert Ref.atob Ref.JSON_parse Ref.StringToNumber
           "A1" "R1" "x" 20000 Ex.server).
  reflexivity.
Defined.

Lemma auth_headers_override_witness :
  let theirs := Some (mkInit (Some "POST")
                  [("accept", "text/html"); ("AUTHORIZATION", "Basic x");
                   ("Content-Type", "application/json")] None None None) in
  let sent_headers := auth_headers theirs (Some "A1") in
  Js.headers_get "Accept" sent_headers = Some "application/json" /\
  Js.headers_get "Authorization" sent_headers = Some ("Bearer " ++ "A1") /\
  (Js.lowercase "Content-Type" <> "accept" ->
   Js.lowercase "Content-Type" <> "authorization" ->
   Js.headers_get "Content-Type" sent_headers =
   Js.headers_get "Content-Type" (default [] (init_headers <$> theirs))).
Proof.
  apply (auth_headers_override
           (Some (mkInit (Some "POST")
                    [("accept", "text/html"); ("AUTHORIZATION", "Basic x");
                     ("Content-Type", "application/json")] None None None))
           "A1" "Content-Type").
  discriminate.
Defined.

Lemma getValidToken_fresh_witness :
  let w' := set_now 100000 (setTokens "A1" "R1" 900000 (Ex.blank "/chat" Ex.offline 0)) in
  browser_getValidToken w' = (Some "A1", w').
Proof.
  apply (getValidToken_fresh Ref.atob Ref.JSON_parse Ref.StringToNumber
           "A1" "R1" 900000 100000 (Ex.blank "/chat" Ex.offline 0)).
  - reflexivity.
  - discriminate.
  - discriminate.
  - vm_compute. discriminate.
Defined.

Lemma unconfigured_call_fails_witness :
  browser_fetchWithAuth 1 "/api/sessions" None 0 Ex.unconfigured =
    Some (Thrown config_error, Ex.unconfigured) /\
  (forall absolute, Js.startsWith absolute "http" = true ->
     fullUrl absolute Ex.unconfigured = Some absolute).
Proof.
  apply (unconfigured_call_fails Ref.atob Ref.JSON_parse Ref.StringToNumber
           0 "/api/sessions" None 0 Ex.unconfigured).
  - reflexivity.
  - left. reflexivity.
Defined.

Lemma fetchWithAuth_returns_response_witness :
  let w := Ex.slow_session 50 in
  let request := auth_init None (Some "A1") in
  let w' := after_request 0 "https://api.example/api/sessions" request
              (getTimeoutForEndpoint "/api/sessions") w in
  browser_fetchWithAuth 1 "/api/sessions" None 0 w =
    Some (Returned (mkResponse 200 None), w') /\
  log w' = (log w ++ [EvFetch (ByExecutor 0) "https://api.example/api/sessions"
                        request (getTimeoutForEndpoint "/api/sessions")])%list /\
  Js.headers_get "Authorization" (init_headers request) = Some ("Bearer " ++ "A1") /\
  init_method request = None ≫= init_method /\
  init_body request = None ≫= init_body /\
  localStorage w' = localStorage w /\
  refreshPromise w' = refreshPromise w.
Proof.
  apply (fetchWithAuth_returns_response Ref.atob Ref.JSON_parse Ref.StringToNumber
           0 "/api/sessions" None 0 (Ex.slow_session 50) (Ex.slow_session 50)
           "https://api.example/api/sessions" "A1" (mkResponse 200 None)).
  - reflexivity.
  - vm_compute. reflexivity.
  - discriminate.
  - reflexivity.
  - discriminate.
  - discriminate.
Defined.

Lemma fetchWithAuth_403_not_retried_witness :
  let w := Ex.forbidden_session in
  let w3 := after_request 0 "https://api.example/api/sessions"
              (auth_init None (Some "A1")) (getTimeoutForEndpoint "/api/sessions") w in
  let w' := handleAuthError "Auth error: 403" w3 in
  browser_fetchWithAuth 1 "/api/sessions" None 0 w =
    Some (Returned (mkResponse 403 None), w') /\
  getTokens w' = mkTokens None None None /\
  traced [0%nat] w w' /\
  refresh_calls (log w') = refresh_calls (log w) /\
  sent w' = S (sent w).
Proof.
  apply (fetchWithAuth_403_not_retried Ref.atob Ref.JSON_parse Ref.StringToNumber
           0 "/api/sessions" None Ex.forbidden_session Ex.forbidden_session
           "https://api.example/api/sessions" (Some "A1") (mkResponse 403 None)).
  - reflexivity.
  - vm_compute. reflexivity.
  - reflexivity.
  - reflexivity.
  - reflexivity.
Defined.

Abbreviation exchange_offline :=
  (snd (browser_refreshTokens
          (Ex.holding "A1" Ex.R2000 99000 100000 "/chat" Ex.offline))).

Lemma settle_failure_witness :
  let w' := settle 0 exchange_offline in
  promises w' !! 0%nat = Some (Settled None) /\
  refreshPromise w' = None /\
  getTokens w' = mkTokens None None None /\
  sent w' = sent exchange_offline /\
  calm exchange_offline w' /\
  (30000 <= latency (network exchange_offline 0%nat) ->
   fetchWithTimeout_result DEFAULT_TIMEOUT (network exchange_offline 0%nat) =
   Rejects timeout_error).
Proof.
  apply (settle_failure 0 0 100000 Ex.R2000 exchange_offline).
  - vm_compute. reflexivity.
  - vm_compute. exact I.
Defined.

Lemma renewal_restarts_witness :
  let w := Ex.expired_session in
  let w1 := snd (browser_run [Invoke; Deliver 0%nat] w) in
  fst (browser_refreshTokens w1) = 1%nat /\
  promises (snd (browser_refreshTokens w1)) !! 1%nat =
    Some (Pending (sent w1) (now w1) Ex.R2000) /\
  refresh_calls (log (snd (browser_refreshTokens w1))) = S (S (refresh_calls (log w))).
Proof.
  apply (renewal_restarts Ref.atob Ref.JSON_parse Ref.StringToNumber
           Ex.R2000 "https://api.example" Ex.R2000 "https://api.example"
           Ex.expired_session).
  - reflexivity.
  - exact expired_session_can_refresh.
  - repeat split; try discriminate; vm_compute; reflexivity.
Defined.

Lemma at_most_one_exchange_witness :
  0%nat = 0%nat /\
  refreshPromise (snd (browser_run [Invoke; Invoke] Ex.expired_session)) = Some 0%nat.
Proof.
  apply (at_most_one_exchange Ref.atob Ref.JSON_parse Ref.StringToNumber
           [Invoke; Invoke] Ex.expired_session 0 0 0 0 100000 100000
           Ex.R2000 Ex.R2000).
  - reflexivity.
  - vm_compute. reflexivity.
  - vm_compute. reflexivity.
Defined.

Lemma fetchWithAuth_renews_first_witness :
  let w := Ex.expired_session in
  let data := mkData (Some "A2") None (Some 900) None in
  let request := auth_init None (Some "A2") in
  let w' := after_request 0 "https://api.example/api/sessions" request 30000
              (exchange_succeeded Ex.R2000 "https://api.example" data w) in
  browser_fetchWithAuth 1 "/api/sessions" None 0 w =
    Some (Returned (mkResponse 200 (Some data)), w') /\
  Js.headers_get "Authorization" (init_headers request) = Some ("Bearer " ++ "A2") /\
  log w' =
    (log w ++ [EvFetch ByRefresh ("https://api.example" ++ "/api/auth/refresh")
                 (refresh_init Ex.R2000) DEFAULT_TIMEOUT;
               EvFetch (ByExecutor 0) "https://api.example/api/sessions"
                 request 30000])%list /\
  accessToken (getTokens w') = Some "A2" /\
  refreshToken (getTokens w') = Some (default Ex.R2000 (refresh_token data)).
Proof.
  apply (fetchWithAuth_renews_first Ref.atob Ref.JSON_parse Ref.StringToNumber
           0 "/api/sessions" None Ex.expired_session
           "https://api.example/api/sessions" Ex.R2000 "https://api.example" "A2"
           (mkResponse 200 (Some (mkData (Some "A2") None (Some 900) None)))
           (mkResponse 200 (Some (mkData (Some "A2") None (Some 900) None)))
           (mkData (Some "A2") None (Some 900) None)).
  - reflexivity.
  - reflexivity.
  - vm_compute. reflexivity.
  - exact expired_session_can_refresh.
  - reflexivity.
  - reflexivity.
  - reflexivity.
  - reflexivity.
  - reflexivity.
  - discriminate.
  - reflexivity.
  - discriminate.
  - discriminate.
Defined.

Lemma fetchWithAuth_retry_succeeds_witness :
  let w := Ex.recovering_session in
  let url := "https://api.example/api/sessions" in
  let data := mkData (Some "A2") None (Some 900) None in
  let request0 := auth_init None (Some "A1") in
  let w4 := exchange_succeeded Ex.R2000 "https://api.example" data
              (after_request 0 url request0 30000 w) in
  let request1 := auth_init None (Some "A2") in
  let w' := after_request 1 url request1 30000 w4 in
  browser_fetchWithAuth 2 "/api/sessions" None 0 w =
    Some (Returned (mkResponse 200 None), w') /\
  log w' =
    (log w ++ [EvFetch (ByExecutor 0) url request0 30000;
               EvFetch ByRefresh ("https://api.example" ++ "/api/auth/refresh")
                 (refresh_init Ex.R2000) DEFAULT_TIMEOUT;
               EvFetch (ByExecutor 1) url request1 30000])%list /\
  Js.headers_get "Authorization" (init_headers request1) = Some ("Bearer " ++ "A2") /\
  accessToken (getTokens w') = Some "A2".
Proof.
  apply (fetchWithAuth_retry_succeeds Ref.atob Ref.JSON_parse Ref.StringToNumber
           0 "/api/sessions" None Ex.recovering_session
           "https://api.example/api/sessions" "A1" Ex.R2000
           "https://api.example" "A2"
           (mkResponse 401 None)
           (mkResponse 200 (Some (mkData (Some "A2") None (Some 900) None)))
           (mkResponse 200 None)
           (mkData (Some "A2") None (Some 900) None)).
  - reflexivity.
  - vm_compute. reflexivity.
  - discriminate.
  - vm_compute. reflexivity.
  - vm_compute. discriminate.
  - reflexivity.
  - reflexivity.
  - reflexivity.
  - repeat split; try discriminate; vm_compute; reflexivity.
  - reflexivity.
  - reflexivity.
  - reflexivity.
  - reflexivity.
  - reflexivity.
  - discriminate.
  - vm_compute. discriminate.
  - reflexivity.
  - discriminate.
  - discriminate.
Defined.

Lemma storage_events_sign_out_witness :
  let other := Ex.rejected_session in
  let w := clearTokens other in
  let c := mkAuth true false [] in
  isAuthenticated
    (fold_left (fun c k => handleStorageChange k w c)
       (storage_events (localStorage other) (localStorage w)) c) = false /\
  handleStorageChange (Some EXP_KEY) w c = c /\
  handleStorageChange None w c = c.
Proof.
  apply (storage_events_sign_out Ex.rejected_session
           (clearTokens Ex.rejected_session) (mkAuth true false [])).
  - reflexivity.
  - reflexivity.
  - vm_compute. reflexivity.
  - reflexivity.
Defined.

Lemma handleLogout_always_signs_out_witness :
  exists w' c',
    handleLogout Ref.atob Ref.JSON_parse Ref.StringToNumber 2
      Ex.rejected_session (mkAuth true false []) = Some (w', c') /\
    getTokens w' = mkTokens None None None /\
    isAuthenticated c' = false /\
    pushed c' = (pushed (mkAuth true false []) ++ ["/login"])%list.
Proof.
  apply (handleLogout_always_signs_out Ref.atob Ref.JSON_parse Ref.StringToNumber
           2 Ex.rejected_session (mkAuth true false [])).
  lia.
Defined.
